(** * light-strike: scoring state machine and dwell cursor

    A shallow embedding of the game-logic handlers of the [App] component
    ([handleNoteHit], [handleNoteMiss], [startGame], [endGame]) and of the
    per-frame [updateLoop] of the [HandCursor] component, followed by the
    properties of the design document checked against them.

    Numbers.  The counters [score], [combo], [multiplier] and [health] only
    ever hold small integers and are modelled in [Z]; times and dwell
    progress are JavaScript doubles and are modelled as exact rationals
    [Q] (no rounding).

    React.  A [useState] cell is a field of the component state.  A
    handler built by [useCallback] reads the state variables of the render
    that created it: such a captured value is an explicit argument of the
    handler.  Module [App] runs one handler to the end, its setters applied
    in program order: this is a handler whose calls are alone in their
    batch.  Module [Batch] queues the setter calls of all the events of one
    frame and runs the queues at the next render, as React does; a frame
    of one event is the run of [App] ([BatchProps.frame_of_one_event]). *)

From Stdlib Require Import ZArith QArith Qminmax Lia Lqa Bool List String Sorted.
From stdpp Require Import base gmap.
Import ListNotations.

Local Open Scope Z_scope.

(** ** types.ts *)

Inductive GameStatus := LOADING | IDLE | PLAYING | GAME_OVER | VICTORY.

(** ['left' | 'right'] *)
Inductive HandType := hand_left | hand_right.

Inductive CutDirection := UP | DOWN | LEFT | RIGHT | ANY.

Module NoteData.

Record t := mk {
  id : string;
  time : Q;
  lineIndex : Z;
  lineLayer : Z;
  type : HandType;
  cutDirection : CutDirection;
  hit : option bool;      (* hit?: boolean *)
  missed : option bool;   (* missed?: boolean *)
  hitTime : option Q      (* hitTime?: number *)
}.

End NoteData.

(** ** App: component state and the React setters *)

Module App.

(** Callbacks handed to [setTimeout]. *)
Inductive Task := EndGame (victory : bool).

Record State := mkState {
  gameStatus : GameStatus;
  score : Z;
  combo : Z;
  multiplier : Z;
  health : Z;
  DEMO_CHART : list NoteData.t;    (* module-level array, mutated in place *)
  audioCurrentTime : Q;            (* audioRef.current.currentTime *)
  audioPaused : bool;              (* audioRef.current.paused *)
  timers : list Task;              (* pending setTimeout callbacks, oldest first *)
  alerts : list string             (* messages shown by alert() *)
}.

Definition with_gameStatus (g : GameStatus) (s : State) : State :=
  mkState g (score s) (combo s) (multiplier s) (health s) (DEMO_CHART s)
          (audioCurrentTime s) (audioPaused s) (timers s) (alerts s).
Definition with_score (v : Z) (s : State) : State :=
  mkState (gameStatus s) v (combo s) (multiplier s) (health s) (DEMO_CHART s)
          (audioCurrentTime s) (audioPaused s) (timers s) (alerts s).
Definition with_combo (v : Z) (s : State) : State :=
  mkState (gameStatus s) (score s) v (multiplier s) (health s) (DEMO_CHART s)
          (audioCurrentTime s) (audioPaused s) (timers s) (alerts s).
Definition with_multiplier (v : Z) (s : State) : State :=
  mkState (gameStatus s) (score s) (combo s) v (health s) (DEMO_CHART s)
          (audioCurrentTime s) (audioPaused s) (timers s) (alerts s).
Definition with_health (v : Z) (s : State) : State :=
  mkState (gameStatus s) (score s) (combo s) (multiplier s) v (DEMO_CHART s)
          (audioCurrentTime s) (audioPaused s) (timers s) (alerts s).
Definition with_chart (c : list NoteData.t) (s : State) : State :=
  mkState (gameStatus s) (score s) (combo s) (multiplier s) (health s) c
          (audioCurrentTime s) (audioPaused s) (timers s) (alerts s).
Definition with_audio (t : Q) (p : bool) (s : State) : State :=
  mkState (gameStatus s) (score s) (combo s) (multiplier s) (health s)
          (DEMO_CHART s) t p (timers s) (alerts s).
Definition with_timers (l : list Task) (s : State) : State :=
  mkState (gameStatus s) (score s) (combo s) (multiplier s) (health s)
          (DEMO_CHART s) (audioCurrentTime s) (audioPaused s) l (alerts s).
Definition with_alerts (l : list string) (s : State) : State :=
  mkState (gameStatus s) (score s) (combo s) (multiplier s) (health s)
          (DEMO_CHART s) (audioCurrentTime s) (audioPaused s) (timers s) l.

(** Handlers are state transformers returning a value. *)
Definition M (A : Type) : Type := State -> A * State.

Definition ret {A} (a : A) : M A := fun s => (a, s).
Definition bind {A B} (m : M A) (k : A -> M B) : M B :=
  fun s => let (a, s') := m s in k a s'.
Definition exec {A} (m : M A) (s : State) : State := snd (m s).

Declare Scope app_scope.
Delimit Scope app_scope with app.
Notation "x <- m ;; k" := (bind m (fun x => k))
  (at level 100, m at next level, right associativity) : app_scope.
Notation "m ;; k" := (bind m (fun _ => k))
  (at level 100, right associativity) : app_scope.
Local Open Scope app_scope.

(** [setX(v)] *)
Definition setGameStatus (g : GameStatus) : M unit :=
  fun s => (tt, with_gameStatus g s).
Definition setMultiplier (v : Z) : M unit :=
  fun s => (tt, with_multiplier v s).

(** [setX(prev => ...)]: the updater receives the current value; it may
    itself call setters or [setTimeout] before it returns the new value. *)
Definition setScore (f : Z -> M Z) : M unit :=
  fun s => let (v, s') := f (score s) s in (tt, with_score v s').
Definition setCombo (f : Z -> M Z) : M unit :=
  fun s => let (v, s') := f (combo s) s in (tt, with_combo v s').
Definition setHealth (f : Z -> M Z) : M unit :=
  fun s => let (v, s') := f (health s) s in (tt, with_health v s').

Definition setTimeout (t : Task) : M unit :=
  fun s => (tt, with_timers (timers s ++ [t]) s).

Definition alert (msg : string) : M unit :=
  fun s => (tt, with_alerts (alerts s ++ [msg]) s).

(** ** Game logic handlers *)

(** [handleNoteHit], built by [useCallback(..., [multiplier])]: the first
    argument is the [multiplier] of the render that created the callback.
    Vibration and the pop sound do not touch the state. *)
Definition handleNoteHit (multiplier : Z) (note : NoteData.t) (goodCut : bool)
  : M unit :=
  let points := 100 in
  let points := if goodCut then points + 50 else points in
  setCombo (fun c =>
    let newCombo := c + 1 in
    (if newCombo >? 30 then setMultiplier 8
     else if newCombo >? 20 then setMultiplier 4
     else if newCombo >? 10 then setMultiplier 2
     else setMultiplier 1) ;;
    ret newCombo) ;;
  setScore (fun s => ret (s + points * multiplier)) ;;
  setHealth (fun h => ret (Z.min 100 (h + 2))).

Definition handleNoteMiss (note : NoteData.t) : M unit :=
  setCombo (fun _ => ret 0) ;;
  setMultiplier 1 ;;
  setHealth (fun h =>
    let newHealth := h - 15 in
    if newHealth <=? 0 then
      setTimeout (EndGame false) ;;
      ret 0
    else ret newHealth).

Definition endGame (victory : bool) : M unit :=
  setGameStatus (if victory then VICTORY else GAME_OVER) ;;
  fun s => (tt, with_audio (audioCurrentTime s) true s).

(** What the browser answers when [startGame] runs. *)
Record StartEnv := mkStartEnv {
  isCameraReady : bool;        (* from useMediaPipe *)
  audioCtxSuspended : bool;    (* audioCtx.state === 'suspended' *)
  resumeResolves : bool;       (* audioCtx.resume() fulfils *)
  playResolves : bool          (* audioRef.current.play() fulfils *)
}.

(** Settlement of the promise returned by the async [startGame]. *)
Inductive Settled := Fulfilled | Rejected.

(** [DEMO_CHART.forEach(n => { n.hit = false; n.missed = false; })] *)
Definition resetNote (n : NoteData.t) : NoteData.t :=
  NoteData.mk (NoteData.id n) (NoteData.time n) (NoteData.lineIndex n)
              (NoteData.lineLayer n) (NoteData.type n) (NoteData.cutDirection n)
              (Some false) (Some false) (NoteData.hitTime n).

Definition resetChart : M unit :=
  fun s => (tt, with_chart (map resetNote (DEMO_CHART s)) s).

(** [startGame]; [audioRef.current] is never null (it is initialised with
    [new Audio(SONG_URL)]).  The awaited steps run without interleaving. *)
Definition startGame (env : StartEnv) : M Settled :=
  if negb (isCameraReady env) then ret Fulfilled
  else if audioCtxSuspended env && negb (resumeResolves env) then ret Rejected
  else
    setScore (fun _ => ret 0) ;;
    setCombo (fun _ => ret 0) ;;
    setMultiplier 1 ;;
    setHealth (fun _ => ret 100) ;;
    resetChart ;;
    (fun s => (tt, with_audio 0%Q (audioPaused s) s)) ;;
    if playResolves env then
      (fun s => (tt, with_audio (audioCurrentTime s) false s)) ;;
      setGameStatus PLAYING ;;
      ret Fulfilled
    else
      alert "Could not start game timer. Please interact with the page first." ;;
      ret Fulfilled.

(** Run the oldest pending [setTimeout] callback. *)
Definition runTimer : M unit :=
  fun s => match timers s with
           | [] => (tt, s)
           | EndGame v :: rest => endGame v (with_timers rest s)
           end.

(** The state of the first render, for a given chart. *)
Definition initial (chart : list NoteData.t) : State :=
  mkState LOADING 0 0 1 100 chart 0%Q true [] [].

(** ** Event sequences

    The judge reports [hit(note, goodCut)] and [miss(note)].  [onEvent] is
    an event that is alone in its batch: the callback is the one of the
    render of [s], its setters are applied, and React renders before the
    next event.  Events that share a frame are in [Batch.frame]. *)
Inductive Event :=
| Hit (note : NoteData.t) (goodCut : bool)
| Miss (note : NoteData.t).

Definition onEvent (e : Event) (s : State) : State :=
  match e with
  | Hit n g => exec (handleNoteHit (multiplier s) n g) s
  | Miss n => exec (handleNoteMiss n) s
  end.

Definition run (evs : list Event) (s : State) : State :=
  fold_left (fun s e => onEvent e s) evs s.

(** The multiplier stored by a hit that brings the combo to [c]. *)
Definition multiplierAfterHit (note : NoteData.t) (c : Z) : Z :=
  multiplier (onEvent (Hit note true) (with_combo (c - 1) (initial []))).

(** Base points of a hit. *)
Definition basePoints (goodCut : bool) : Z := if goodCut then 100 + 50 else 100.

End App.

(** ** HandCursor: the dwell selector *)

Module HandCursor.

Local Open Scope Q_scope.

(** A DOM element, by identity. *)
Definition Element := nat.

Record CursorState := mkCursor {
  x : Q;
  y : Q;
  active : bool;
  progress : Q;      (* 0 to 1 *)
  hovering : bool;
  color : string
}.

(** An entry of [internalState.current]. *)
Record TargetState := mkTarget {
  startTime : Q;
  lastTarget : option Element
}.

Definition HOVER_THRESHOLD_MS : Q := 1000.   (* Time to trigger click *)
Definition CURSOR_OFFSET_Y : Q := -20.

(** The arrays [cursors] and [internalState.current] have two entries. *)
Inductive Slot := Slot0 | Slot1.

Record Two (A : Type) := mkTwo { at0 : A; at1 : A }.
Arguments mkTwo {A} _ _.
Arguments at0 {A} _.
Arguments at1 {A} _.

Definition get {A} (i : Slot) (a : Two A) : A :=
  match i with Slot0 => at0 a | Slot1 => at1 a end.
Definition set {A} (i : Slot) (v : A) (a : Two A) : Two A :=
  match i with Slot0 => mkTwo v (at1 a) | Slot1 => mkTwo (at0 a) v end.
Definition index (i : Slot) : nat :=
  match i with Slot0 => 0%nat | Slot1 => 1%nat end.

(** The part of the document the loop writes to. *)
Record Dom := mkDom {
  hoverClass : gset Element;    (* elements whose classList has 'data-hand-hover' *)
  clicks : list Element         (* calls of click(), oldest first *)
}.

(** The objects held by the component.  [nextCursors = [...cursors]] copies
    the array, not the cursor objects: the loop mutates the same two
    objects on every frame, so they are part of the persistent state. *)
Record World := mkWorld {
  cursors : Two CursorState;
  internalState : Two TargetState;
  dom : Dom
}.

(** One detected hand: [landmarks[i][8]] and [handedness[i][0].categoryName],
    with the readings of [performance.now()] made while it is processed
    (the one of the hover test and the one taken after [click()]). *)
Record Hand := mkHand {
  tip_x : Q;
  tip_y : Q;
  categoryName : string;
  now : Q;
  nowAfterClick : Q
}.

(** What the loop reads from the browser in one frame. *)
Record Frame := mkFrame {
  results : option (list Hand);         (* resultsRef.current?.landmarks *)
  innerWidth : Q;
  innerHeight : Q;
  buttonAt : Q -> Q -> option Element;  (* elementFromPoint(x, y)?.closest('button') *)
  disabled : Element -> bool            (* hasAttribute('disabled') *)
}.

Definition sameTarget (last : option Element) (b : Element) : bool :=
  match last with Some t => Nat.eqb t b | None => false end.

(** The body of the loop from the hit test on, for one cursor; [target] is
    the button under the fingertip, if there is one and it is enabled. *)
Definition hover (target : option Element) (now nowAfterClick : Q)
    (cur : CursorState) (st : TargetState) (d : Dom)
  : CursorState * TargetState * Dom :=
  match target with
  | Some targetButton =>
      let d := mkDom (hoverClass d ∪ {[ targetButton ]}) (clicks d) in
      if negb (sameTarget (lastTarget st) targetButton) then
        (* New target *)
        (mkCursor (x cur) (y cur) (active cur) 0 true (color cur),
         mkTarget now (Some targetButton), d)
      else
        (* Still holding same target *)
        let elapsed := now - startTime st in
        let progress := Qmin 1 (elapsed / HOVER_THRESHOLD_MS) in
        if Qle_bool 1 progress then
          (* CLICK! *)
          (mkCursor (x cur) (y cur) (active cur) 0 true (color cur),
           mkTarget (nowAfterClick + 500) (lastTarget st),
           mkDom (hoverClass d) (clicks d ++ [targetButton]))
        else
          (mkCursor (x cur) (y cur) (active cur) progress true (color cur),
           st, d)
  | None =>
      (* Lost target *)
      let d := match lastTarget st with
               | Some t => mkDom (hoverClass d ∖ {[ t ]}) (clicks d)
               | None => d
               end in
      (mkCursor (x cur) (y cur) (active cur) 0 false (color cur),
       mkTarget (startTime st) None, d)
  end.

Definition hitTest (f : Frame) (screenX screenY : Q) : option Element :=
  match buttonAt f screenX screenY with
  | Some b => if negb (disabled f b) then Some b else None
  | None => None
  end.

(** The branch [if (landmarks && handedness)]. *)
Definition handSeen (f : Frame) (h : Hand) (w : World) : World :=
  let isRight := String.eqb (categoryName h) "Right" in
  let cursorIdx := if isRight then Slot1 else Slot0 in
  let screenX := (1 - tip_x h) * innerWidth f in
  let screenY := tip_y h * innerHeight f in
  let currentState := get cursorIdx (cursors w) in
  let currentState :=
    mkCursor screenX (screenY + CURSOR_OFFSET_Y) true
             (progress currentState) (hovering currentState) (color currentState) in
  let '(cur, st, d) :=
    hover (hitTest f screenX screenY) (now h) (nowAfterClick h)
          currentState (get cursorIdx (internalState w)) (dom w) in
  mkWorld (set cursorIdx cur (cursors w)) (set cursorIdx st (internalState w)) d.

(** The branch [// Hand lost], for loop index [i]. *)
Definition handLost (i : Slot) (w : World) : World :=
  let c := get i (cursors w) in
  if active c then
    mkWorld
      (set i (mkCursor (x c) (y c) false (progress c) false (color c)) (cursors w))
      (set i (mkTarget (startTime (get i (internalState w))) None) (internalState w))
      (dom w)
  else w.

Definition iteration (f : Frame) (hands : list Hand) (i : Slot) (w : World) : World :=
  match nth_error hands (index i) with
  | Some h => handSeen f h w
  | None => handLost i w
  end.

(** One run of [updateLoop]. *)
Definition updateLoop (f : Frame) (w : World) : World :=
  match results f with
  | Some hands => iteration f hands Slot1 (iteration f hands Slot0 w)
  | None => w
  end.

(** The state of the first render. *)
Definition initial : World :=
  mkWorld
    (mkTwo (mkCursor 0 0 false 0 false "#ff5c8d")
           (mkCursor 0 0 false 0 false "#2de1fc"))
    (mkTwo (mkTarget 0 None) (mkTarget 0 None))
    (mkDom ∅ []).

Definition runFrames (fs : list Frame) (w : World) : World :=
  fold_left (fun w f => updateLoop f w) fs w.

(** *** One cursor over a sequence of frames *)

(** The cursor and its target state, with the document. *)
Definition Dwell : Type := CursorState * TargetState * Dom.

(** A frame as one cursor sees it while its hand is tracked: the enabled
    button under the fingertip and the two clock readings. *)
Record Tick := mkTick {
  target : option Element;
  tnow : Q;
  tafter : Q
}.

Definition tick (t : Tick) (s : Dwell) : Dwell :=
  let '(cur, st, d) := s in hover (target t) (tnow t) (tafter t) cur st d.

Definition ticks (ts : list Tick) (s : Dwell) : Dwell :=
  fold_left (fun s t => tick t s) ts s.

(** Did this tick call [click()]? *)
Definition fires (t : Tick) (s : Dwell) : bool :=
  negb (Nat.eqb (length (clicks (snd (tick t s)))) (length (clicks (snd s)))).

(** The times at which [click()] is called along a sequence of ticks. *)
Fixpoint clickTimes (ts : list Tick) (s : Dwell) : list Q :=
  match ts with
  | [] => []
  | t :: ts' =>
      (if fires t s then [tnow t] else []) ++ clickTimes ts' (tick t s)
  end.

(** The progress shown after each tick of a sequence. *)
Fixpoint progresses (ts : list Tick) (s : Dwell) : list Q :=
  match ts with
  | [] => []
  | t :: ts' => progress (fst (fst (tick t s))) :: progresses ts' (tick t s)
  end.

End HandCursor.

(** ** Definitions that follow the design document *)

Module Spec.

(** Multiplier tier of a combo value: combo > 30 gives 8, > 20 gives 4,
    > 10 gives 2, else 1. *)
Definition tier (c : Z) : Z :=
  if 30 <? c then 8 else if 20 <? c then 4 else if 10 <? c then 2 else 1.

(** A note is unjudged in the document's sense when [hit] and [missed] are
    not set and there is no [hitTime]. *)
Definition flagClear (b : option bool) : Prop := b = Some false \/ b = None.

Definition unjudged (n : NoteData.t) : Prop :=
  flagClear (NoteData.hit n) /\ flagClear (NoteData.missed n) /\
  NoteData.hitTime n = None.

(** The fields of a note that are not judgment fields. *)
Definition sameSchedule (n n' : NoteData.t) : Prop :=
  NoteData.id n' = NoteData.id n /\
  NoteData.time n' = NoteData.time n /\
  NoteData.lineIndex n' = NoteData.lineIndex n /\
  NoteData.lineLayer n' = NoteData.lineLayer n /\
  NoteData.type n' = NoteData.type n /\
  NoteData.cutDirection n' = NoteData.cutDirection n.

(** The stored multiplier is the tier of the stored combo. *)
Definition coherent (s : App.State) : Prop :=
  App.multiplier s = tier (App.combo s).

Definition healthy (s : App.State) : Prop := 0 <= App.health s <= 100.

End Spec.

(** ** Sample data *)

Module Sample.

Definition note1 : NoteData.t :=
  NoteData.mk "n1" 5 1 0 hand_left ANY None None None.

(** A note that was hit at 5.1 s in an earlier session. *)
Definition noteHit : NoteData.t :=
  NoteData.mk "n2" 5 2 1 hand_right DOWN (Some true) None (Some (51 # 10)).

Definition goodHits (k : nat) : list App.Event := repeat (App.Hit note1 true) k.

(** The browser lets everything through. *)
Definition envOk : App.StartEnv := App.mkStartEnv true false true true.

(** The camera is ready but [play()] is refused. *)
Definition envPlayFails : App.StartEnv := App.mkStartEnv true false true false.

(** A 1000 x 1000 window whose left half is covered by the enabled
    button 7. *)
Definition layout (r : option (list HandCursor.Hand)) : HandCursor.Frame :=
  HandCursor.mkFrame r 1000 1000
    (fun x _ => if Qle_bool x 500 then Some 7%nat else None)
    (fun _ => false).

(** A hand labelled 'Left' whose fingertip is over button 7 at time [t]. *)
Definition leftOnButton (t : Q) : HandCursor.Hand :=
  HandCursor.mkHand (3 # 4) (1 # 2) "Left" t t.

(** A hand labelled 'Right' whose fingertip is over no button. *)
Definition rightOffButton (t : Q) : HandCursor.Hand :=
  HandCursor.mkHand (1 # 4) (1 # 2) "Right" t t.

(** A hand labelled 'Left' whose fingertip is over no button. *)
Definition leftOffButton (t : Q) : HandCursor.Hand :=
  HandCursor.mkHand (1 # 4) (1 # 2) "Left" t t.

(** A hand labelled 'Right' whose fingertip is over button 7. *)
Definition rightOnButton (t : Q) : HandCursor.Hand :=
  HandCursor.mkHand (3 # 4) (1 # 2) "Right" t t.

(** The left hand has hovered button 7 for 600 ms. *)
Definition midDwell : HandCursor.World :=
  HandCursor.runFrames
    [layout (Some [leftOnButton 0]); layout (Some [leftOnButton 600])]
    HandCursor.initial.

(** One cursor hovering button 7 at time [t]. *)
Definition onButton (t : Q) : HandCursor.Tick := HandCursor.mkTick (Some 7%nat) t t.

Definition dwell0 : HandCursor.Dwell :=
  (HandCursor.at0 (HandCursor.cursors HandCursor.initial),
   HandCursor.at0 (HandCursor.internalState HandCursor.initial),
   HandCursor.dom HandCursor.initial).

End Sample.

(** ** App: effects, buttons and what the render tree offers *)

Module Machine.
Import App.

Local Open Scope Z_scope.
Local Open Scope app_scope.

(** [useEffect(() => { if (gameStatus === LOADING && isCameraReady)
    setGameStatus(IDLE) }, [isCameraReady, gameStatus])] *)
Definition cameraEffect (isCameraReady : bool) : M unit :=
  fun s =>
    match gameStatus s with
    | LOADING => if isCameraReady then setGameStatus IDLE s else (tt, s)
    | _ => (tt, s)
    end.

(** [onClick={() => setGameStatus(GameStatus.IDLE)}] of the Play Again button. *)
Definition playAgain : M unit := setGameStatus IDLE.

(** [onSongEnd={() => endGame(true)}] *)
Definition onSongEnd : M unit := endGame true.

(** Everything that can run a handler of the component. *)
Inductive Action :=
| CameraEffect (isCameraReady : bool)
| Start (env : StartEnv)
| NoteHit (note : NoteData.t) (goodCut : bool)
| NoteMiss (note : NoteData.t)
| SongEnd
| Timer
| PlayAgain.

Definition step (a : Action) (s : State) : State :=
  match a with
  | CameraEffect ready => exec (cameraEffect ready) s
  | Start env => exec (startGame env) s
  | NoteHit n g => onEvent (Hit n g) s
  | NoteMiss n => onEvent (Miss n) s
  | SongEnd => exec onSongEnd s
  | Timer => exec runTimer s
  | PlayAgain => exec playAgain s
  end.

Definition runActions (acts : list Action) (s : State) : State :=
  fold_left (fun s a => step a s) acts s.

Definition statusEqb (a b : GameStatus) : bool :=
  match a, b with
  | LOADING, LOADING | IDLE, IDLE | PLAYING, PLAYING
  | GAME_OVER, GAME_OVER | VICTORY, VICTORY => true
  | _, _ => false
  end.

(** The conditions of the JSX tree. *)

(** [{gameStatus !== GameStatus.LOADING && <GameScene ... />}] *)
Definition gameSceneMounted (s : State) : bool :=
  negb (statusEqb (gameStatus s) LOADING).

(** [{gameStatus !== GameStatus.PLAYING && <HandCursor ... />}] *)
Definition handCursorMounted (s : State) : bool :=
  negb (statusEqb (gameStatus s) PLAYING).

(** The START GAME button: inside the IDLE menu, in the branch where
    the camera is ready. *)
Definition startButtonShown (isCameraReady : bool) (s : State) : bool :=
  statusEqb (gameStatus s) IDLE && isCameraReady.

(** The Play Again button of the GAME_OVER / VICTORY panel. *)
Definition playAgainShown (s : State) : bool :=
  statusEqb (gameStatus s) GAME_OVER || statusEqb (gameStatus s) VICTORY.

(** [style={{ width: `${health}%` }}] *)
Definition healthBarWidth (s : State) : Z := health s.

(** [combo > 10 ? 'text-blue-500 scale-110' : 'text-slate-400'] *)
Definition comboHighlighted (s : State) : bool := combo s >? 10.

(** [{multiplier > 1 && <span>x{multiplier} BONUS!</span>}] *)
Definition bonusBadge (s : State) : option Z :=
  if multiplier s >? 1 then Some (multiplier s) else None.

(** Can the rendered tree run this action?  The callbacks of GameScene
    exist while it is mounted, a button can be clicked (by mouse or by the
    hand cursor) while it is rendered, a timer fires while one is queued. *)
Definition offered (a : Action) (s : State) : bool :=
  match a with
  | CameraEffect _ => true
  | Start env => startButtonShown (isCameraReady env) s
  | NoteHit _ _ | NoteMiss _ | SongEnd => gameSceneMounted s
  | Timer => match timers s with [] => false | _ => true end
  | PlayAgain => playAgainShown s
  end.

(** Number of hits since the last miss, on top of the combo [c] held before
    the events. *)
Fixpoint streak (c : Z) (evs : list Event) : Z :=
  match evs with
  | [] => c
  | Hit _ _ :: evs' => streak (c + 1) evs'
  | Miss _ :: evs' => streak 0 evs'
  end.

Definition isHit (e : Event) : bool :=
  match e with Hit _ _ => true | Miss _ => false end.

(** The counters and the chart are out of reach of the handlers that only
    move the phase, the audio element or the timer queue. *)
Definition sameCounters (s s' : State) : Prop :=
  score s' = score s /\ combo s' = combo s /\ multiplier s' = multiplier s /\
  health s' = health s /\ DEMO_CHART s' = DEMO_CHART s.

(** Only [handleNoteMiss] calls [setTimeout], always with [endGame(false)]. *)
Definition onlyGameOverQueued (s : State) : Prop :=
  Forall (fun t => t = EndGame false) (timers s).

End Machine.

(** ** App: the events of one frame, batched

    The judge calls [onNoteHit] and [onNoteMiss] from the frame callback
    of the scene.  React queues every setter call made before it renders:
    each hook keeps its calls in order, an updater function is run when
    the hook is read at the render, and all the callbacks of the frame are
    those of the last render. *)

Module Batch.
Import App.

Local Open Scope Z_scope.

(** What an updater of this program does besides returning the new value:
    it calls [setMultiplier(v)] or [setTimeout(f, 0)]. *)
Inductive Call :=
| CallSetMultiplier (v : Z)
| CallSetTimeout (t : Task).

(** The argument of a setter: a value, or an updater given as the new
    value and the calls it makes, in order. *)
Inductive Arg :=
| Value (v : Z)
| Updater (f : Z -> Z * list Call).

(** A setter call of a handler. *)
Inductive Dispatch :=
| SetScore (a : Arg)
| SetCombo (a : Arg)
| SetMultiplier (a : Arg)
| SetHealth (a : Arg).

(** [handleNoteHit] as the setter calls it makes; [multiplier] is the one
    of the render that built the callback. *)
Definition handleNoteHit (multiplier : Z) (note : NoteData.t) (goodCut : bool)
  : list Dispatch :=
  let points := 100 in
  let points := if goodCut then points + 50 else points in
  [ SetCombo (Updater (fun c =>
      let newCombo := c + 1 in
      (newCombo,
       [ if newCombo >? 30 then CallSetMultiplier 8
         else if newCombo >? 20 then CallSetMultiplier 4
         else if newCombo >? 10 then CallSetMultiplier 2
         else CallSetMultiplier 1 ])));
    SetScore (Updater (fun s => (s + points * multiplier, [])));
    SetHealth (Updater (fun h => (Z.min 100 (h + 2), []))) ].

Definition handleNoteMiss (note : NoteData.t) : list Dispatch :=
  [ SetCombo (Value 0);
    SetMultiplier (Value 1);
    SetHealth (Updater (fun h =>
      let newHealth := h - 15 in
      if newHealth <=? 0 then (0, [CallSetTimeout (EndGame false)])
      else (newHealth, []))) ].

Definition dispatch (multiplier : Z) (e : Event) : list Dispatch :=
  match e with
  | Hit n g => handleNoteHit multiplier n g
  | Miss n => handleNoteMiss n
  end.

(** The queue of each hook, in call order. *)
Definition scoreQueue (ds : list Dispatch) : list Arg :=
  flat_map (fun d => match d with SetScore a => [a] | _ => [] end) ds.
Definition comboQueue (ds : list Dispatch) : list Arg :=
  flat_map (fun d => match d with SetCombo a => [a] | _ => [] end) ds.
Definition multiplierQueue (ds : list Dispatch) : list Arg :=
  flat_map (fun d => match d with SetMultiplier a => [a] | _ => [] end) ds.
Definition healthQueue (ds : list Dispatch) : list Arg :=
  flat_map (fun d => match d with SetHealth a => [a] | _ => [] end) ds.

(** Reading a hook at the render: the queue is applied to the value, the
    updaters run and make their calls. *)
Fixpoint reduce (q : list Arg) (v : Z) : Z * list Call :=
  match q with
  | [] => (v, [])
  | Value w :: q' => reduce q' w
  | Updater f :: q' =>
      let (w, calls) := f v in
      let (r, calls') := reduce q' w in
      (r, calls ++ calls')
  end.

Definition multiplierCalls (cs : list Call) : list Arg :=
  flat_map (fun c => match c with CallSetMultiplier v => [Value v] | _ => [] end) cs.
Definition timeoutCalls (cs : list Call) : list Task :=
  flat_map (fun c => match c with CallSetTimeout t => [t] | _ => [] end) cs.

(** The render that follows a batch.  The hooks are read in the order of
    their declaration: score, combo, multiplier, health.  A
    [setMultiplier] called by an updater of score or combo joins the queue
    of the multiplier before that hook is read, behind the calls of the
    handlers; one called later is applied when the component renders
    again. *)
Definition render (ds : list Dispatch) (s : State) : State :=
  let (score', calls1) := reduce (scoreQueue ds) (score s) in
  let (combo', calls2) := reduce (comboQueue ds) (combo s) in
  let (multiplier', calls3) :=
    reduce (multiplierQueue ds ++ multiplierCalls (calls1 ++ calls2)) (multiplier s) in
  let (health', calls4) := reduce (healthQueue ds) (health s) in
  let (multiplier'', calls5) :=
    reduce (multiplierCalls (calls3 ++ calls4)) multiplier' in
  mkState (gameStatus s) score' combo' multiplier'' health' (DEMO_CHART s)
          (audioCurrentTime s) (audioPaused s)
          (timers s ++ timeoutCalls (calls1 ++ calls2 ++ calls3 ++ calls4 ++ calls5))
          (alerts s).

(** The events of one frame: every callback is the one built by the
    render of [s]. *)
Definition frame (evs : list Event) (s : State) : State :=
  render (flat_map (dispatch (multiplier s)) evs) s.

Definition frames (fs : list (list Event)) (s : State) : State :=
  fold_left (fun s evs => frame evs s) fs s.

(** A run of the component: frames of judge events, and the other
    handlers, each in a batch of its own. *)
Inductive Step :=
| Frame (evs : list Event)
| Act (a : Machine.Action).

Definition step (st : Step) (s : State) : State :=
  match st with
  | Frame evs => frame evs s
  | Act a => Machine.step a s
  end.

Definition steps (sts : list Step) (s : State) : State :=
  fold_left (fun s st => step st s) sts s.

(** Base points of the hits of a frame. *)
Definition hitPoints (evs : list Event) : Z :=
  fold_right (fun e acc => match e with
                           | Hit _ g => basePoints g + acc
                           | Miss _ => acc
                           end) 0 evs.

Definition isMiss (e : Event) : bool :=
  match e with Miss _ => true | Hit _ _ => false end.

(** The multipliers that the hits of a frame ask for, in order, the combo
    being [c] before the frame. *)
Fixpoint hitTiers (c : Z) (evs : list Event) : list Z :=
  match evs with
  | [] => []
  | Hit _ _ :: evs' => Spec.tier (c + 1) :: hitTiers (c + 1) evs'
  | Miss _ :: evs' => hitTiers 0 evs'
  end.

(** A frame in which no miss comes after a hit: misses first, then hits. *)
Fixpoint missesThenHits (evs : list Event) : bool :=
  match evs with
  | [] => true
  | Miss _ :: evs' => missesThenHits evs'
  | Hit _ _ :: evs' => forallb Machine.isHit evs'
  end.

Definition cleanStep (st : Step) : bool :=
  match st with
  | Frame evs => missesThenHits evs
  | Act _ => true
  end.

(** The counters are in their ranges. *)
Definition ranged (s : State) : Prop :=
  0 <= health s <= 100 /\ 0 <= combo s /\ 0 <= score s /\
  In (multiplier s) [1; 2; 4; 8].

End Batch.

(** ** HandCursor: teardown and the view of one cursor *)

Module CursorView.
Import HandCursor.

Local Open Scope Q_scope.

(** What the hit test and the clock give for one hand in one frame. *)
Definition tickOf (f : Frame) (h : Hand) : Tick :=
  mkTick (hitTest f ((1 - tip_x h) * innerWidth f) (tip_y h * innerHeight f))
         (now h) (nowAfterClick h).

(** A frame whose results hold exactly one hand, labelled [label]. *)
Definition loneHand (label : string) (f : Frame) : option Hand :=
  match results f with
  | Some [h] => if String.eqb (categoryName h) label then Some h else None
  | _ => None
  end.

(** The ticks seen by the cursor of the hand labelled 'Left' over frames
    that hold that hand alone. *)
Fixpoint leftTicks (fs : list Frame) : list Tick :=
  match fs with
  | [] => []
  | f :: fs' =>
      match loneHand "Left" f with
      | Some h => tickOf f h :: leftTicks fs'
      | None => leftTicks fs'
      end
  end.

(** The elements clicked by [updateLoop] in this frame. *)
Definition clickedIn (f : Frame) (w : World) : list Element :=
  skipn (length (clicks (dom w))) (clicks (dom (updateLoop f w))).

(** The part of the world that belongs to cursor 0, as a dwell state. *)
Definition leftDwell (w : World) : Dwell :=
  (at0 (cursors w), at0 (internalState w), dom w).

(** Agreement between the world and a dwell state of cursor 0. *)
Definition tracks (w : World) (s : Dwell) : Prop :=
  at0 (internalState w) = snd (fst s) /\ dom w = snd s /\
  progress (at0 (cursors w)) = progress (fst (fst s)) /\
  hovering (at0 (cursors w)) = hovering (fst (fst s)).

(** The history [hist] (oldest tick first) ends with a run of ticks on
    button [b] whose first clock reading is [since]. *)
Definition heldSince (b : Element) (since : Q) (hist : list Tick) : Prop :=
  exists before first run,
    hist = before ++ first :: run /\
    Forall (fun u => target u = Some b) (first :: run) /\
    tnow first = since.

End CursorView.

(** ** Note.tsx: what a note renders to *)

Module Note.

Local Open Scope Q_scope.

(** [COLORS] of types.ts. *)
Definition COLORS_left : string := "#ff5c8d".
Definition COLORS_right : string := "#2de1fc".

Record NoteProps := mkProps {
  data : NoteData.t;
  zPos : Q;
  currentTime : Q
}.

(** Truthiness of an optional boolean and of an optional number (0 is
    falsy). *)
Definition truthyFlag (b : option bool) : bool :=
  match b with Some true => true | _ => false end.
Definition truthyNumber (q : option Q) : bool :=
  match q with Some v => negb (Qeq_bool v 0) | None => false end.

(** [===] on optional booleans. *)
Definition flagEqb (a b : option bool) : bool :=
  match a, b with
  | Some x, Some y => Bool.eqb x y
  | None, None => true
  | _, _ => false
  end.

(** The element tree, up to the meshes whose shape is fixed. *)
Inductive Rendered :=
| Nothing
| DebrisAt (x y : option Q) (z : Q) (timeSinceHit : Q) (color : string)
| CandyAt (x y : option Q) (z : Q) (color : string).

Section Constants.

(** [LANE_X_POSITIONS[i]] and [LAYER_Y_POSITIONS[i]] of constants.ts, as
    lookups that may be undefined. *)
Variable LANE_X_POSITIONS : Z -> option Q.
Variable LAYER_Y_POSITIONS : Z -> option Q.

(** The component [Note]. *)
Definition Note (p : NoteProps) : Rendered :=
  let color := match NoteData.type (data p) with
               | hand_left => COLORS_left
               | hand_right => COLORS_right
               end in
  let px := LANE_X_POSITIONS (NoteData.lineIndex (data p)) in
  let py := LAYER_Y_POSITIONS (NoteData.lineLayer (data p)) in
  if truthyFlag (NoteData.missed (data p)) then Nothing
  else if truthyFlag (NoteData.hit (data p)) && truthyNumber (NoteData.hitTime (data p))
  then DebrisAt px py (zPos p)
         (currentTime p - match NoteData.hitTime (data p) with
                          | Some v => v | None => 0 end)
         color
  else CandyAt px py (zPos p) color.

End Constants.

(** The comparator given to [React.memo]: [true] lets React skip the
    render. *)
Definition propsAreEqual (prev next : NoteProps) : bool :=
  if truthyFlag (NoteData.hit (data next)) then false
  else Qeq_bool (zPos prev) (zPos next)
       && flagEqb (NoteData.hit (data prev)) (NoteData.hit (data next))
       && flagEqb (NoteData.missed (data prev)) (NoteData.missed (data next)).

(** Two element trees that differ at most in how the depth is written as a
    fraction. *)
Definition sameRendered (a b : Rendered) : Prop :=
  match a, b with
  | Nothing, Nothing => True
  | DebrisAt x y z t c, DebrisAt x' y' z' t' c' =>
      x = x' /\ y = y' /\ z == z' /\ t == t' /\ c = c'
  | CandyAt x y z c, CandyAt x' y' z' c' =>
      x = x' /\ y = y' /\ z == z' /\ c = c'
  | _, _ => False
  end.

(** [Debris]: the scale set on every frame,
    [Math.max(0.01, 1 - timeSinceHit * 2)]. *)
Definition debrisScale (timeSinceHit : Q) : Q :=
  Qmax (1 # 100) (1 - timeSinceHit * 2).

(** The colour of a note. *)
Definition colorOf (n : NoteData.t) : string :=
  match NoteData.type n with hand_left => COLORS_left | hand_right => COLORS_right end.

(** Lane and layer tables for the examples. *)
Definition sampleLanes (i : Z) : option Q :=
  nth_error [- (3 # 4); - (1 # 4); 1 # 4; 3 # 4] (Z.to_nat i).
Definition sampleLayers (i : Z) : option Q :=
  nth_error [4 # 5; 8 # 5; 12 # 5] (Z.to_nat i).

End Note.

(** * Properties of the scoring state machine *)

Module AppProps.
Import App Spec.

Local Open Scope Z_scope.

Ltac run_handler :=
  unfold onEvent, exec, handleNoteHit, handleNoteMiss, startGame, endGame,
    resetChart, setCombo, setScore, setHealth, setMultiplier, setGameStatus,
    setTimeout, alert, bind, ret; cbn.

Lemma tier_values (c : Z) :
  Spec.tier c = 1 \/ Spec.tier c = 2 \/ Spec.tier c = 4 \/ Spec.tier c = 8.
Proof.
  unfold Spec.tier.
  destruct (30 <? c); [ tauto | ].
  destruct (20 <? c); [ tauto | ].
  destruct (10 <? c); tauto.
Qed.

Lemma tier_mono (c d : Z) : c <= d -> Spec.tier c <= Spec.tier d.
Proof.
  unfold Spec.tier. intros Hcd.
  destruct (Z.ltb_spec 30 c), (Z.ltb_spec 20 c), (Z.ltb_spec 10 c),
    (Z.ltb_spec 30 d), (Z.ltb_spec 20 d), (Z.ltb_spec 10 d); lia.
Qed.

(** What a hit does to each counter, for any captured multiplier [m]. *)
Lemma handleNoteHit_fields (m : Z) (n : NoteData.t) (g : bool) (s : State) :
  let s' := exec (handleNoteHit m n g) s in
  combo s' = combo s + 1 /\
  multiplier s' = Spec.tier (combo s + 1) /\
  score s' = score s + basePoints g * m /\
  health s' = Z.min 100 (health s + 2) /\
  gameStatus s' = gameStatus s /\
  timers s' = timers s /\
  DEMO_CHART s' = DEMO_CHART s.
Proof.
  unfold Spec.tier, basePoints. run_handler.
  rewrite !Z.gtb_ltb.
  destruct (30 <? combo s + 1); [ destruct g; cbn; tauto | ].
  destruct (20 <? combo s + 1); [ destruct g; cbn; tauto | ].
  destruct (10 <? combo s + 1); destruct g; cbn; tauto.
Qed.

Lemma handleNoteMiss_fields (n : NoteData.t) (s : State) :
  let s' := exec (handleNoteMiss n) s in
  combo s' = 0 /\
  multiplier s' = 1 /\
  health s' = Z.max 0 (health s - 15) /\
  gameStatus s' = gameStatus s /\
  score s' = score s /\
  timers s' = (if health s - 15 <=? 0 then timers s ++ [EndGame false]
               else timers s).
Proof.
  run_handler.
  destruct (Z.leb_spec (health s - 15) 0); cbn; repeat split; lia.
Qed.

Lemma onEvent_coherent (e : Event) (s : State) : coherent (onEvent e s).
Proof.
  unfold coherent. destruct e as [n g | n]; cbn [onEvent].
  - destruct (handleNoteHit_fields (multiplier s) n g s) as (Hc & Hm & _).
    rewrite Hc. exact Hm.
  - destruct (handleNoteMiss_fields n s) as (Hc & Hm & _).
    rewrite Hc, Hm. reflexivity.
Qed.

Lemma run_snoc (evs : list Event) (e : Event) (s : State) :
  run (evs ++ [e]) s = onEvent e (run evs s).
Proof. unfold run. rewrite fold_left_app. reflexivity. Qed.

Lemma run_coherent (evs : list Event) (s : State) :
  coherent s -> coherent (run evs s).
Proof.
  intros Hs. induction evs as [| e evs _] using rev_ind.
  - exact Hs.
  - rewrite run_snoc. apply onEvent_coherent.
Qed.

Lemma initial_coherent (chart : list NoteData.t) : coherent (initial chart).
Proof. reflexivity. Qed.

Lemma onEvent_healthy (e : Event) (s : State) : healthy s -> healthy (onEvent e s).
Proof.
  unfold healthy. intros Hs. destruct e as [n g | n]; cbn [onEvent].
  - destruct (handleNoteHit_fields (multiplier s) n g s) as (_ & _ & _ & Hh & _).
    rewrite Hh. lia.
  - destruct (handleNoteMiss_fields n s) as (_ & _ & Hh & _).
    rewrite Hh. lia.
Qed.

Lemma run_healthy (evs : list Event) :
  forall s, healthy s -> healthy (run evs s).
Proof.
  induction evs as [| e evs IH]; intros s Hs.
  - exact Hs.
  - cbn. apply IH, onEvent_healthy, Hs.
Qed.

(** C2: the multiplier stored by a hit that brings the combo to [c] is
    one of 1, 2, 4, 8, is non-decreasing in [c], and is picked by strict
    thresholds (c > 30: 8, c > 20: 4, c > 10: 2, else 1), so that
    10 gives 1, 20 gives 2, 21 gives 4 and 31 gives 8. *)
Theorem C2_multiplier_tiers :
  forall (n : NoteData.t),
    (forall c, multiplierAfterHit n c =
               if c >? 30 then 8 else if c >? 20 then 4
               else if c >? 10 then 2 else 1) /\
    (forall c, In (multiplierAfterHit n c) [1; 2; 4; 8]) /\
    (forall c d, c <= d -> multiplierAfterHit n c <= multiplierAfterHit n d) /\
    (forall m g s, multiplier (exec (handleNoteHit m n g) s)
                   = multiplierAfterHit n (combo (exec (handleNoteHit m n g) s))) /\
    multiplierAfterHit n 10 = 1 /\ multiplierAfterHit n 11 = 2 /\
    multiplierAfterHit n 20 = 2 /\ multiplierAfterHit n 21 = 4 /\
    multiplierAfterHit n 30 = 4 /\ multiplierAfterHit n 31 = 8.
Proof.
  intros n.
  assert (Htier : forall c, multiplierAfterHit n c = tier c).
  { intros c. unfold multiplierAfterHit. cbn [onEvent].
    destruct (handleNoteHit_fields (multiplier (with_combo (c - 1) (initial [])))
                n true (with_combo (c - 1) (initial []))) as (_ & Hm & _).
    rewrite Hm. cbn [combo with_combo]. f_equal. lia. }
  repeat split.
  - intros c. rewrite Htier. unfold tier. rewrite !Z.gtb_ltb. reflexivity.
  - intros c. rewrite Htier. cbn [In].
    destruct (tier_values c) as [H | [H | [H | H]]]; rewrite H; tauto.
  - intros c d Hcd. rewrite !Htier. apply tier_mono, Hcd.
  - intros m g s. rewrite Htier.
    destruct (handleNoteHit_fields m n g s) as (Hc & Hm & _).
    rewrite Hm, Hc. reflexivity.
Qed.

(** C3: along every sequence of hit and miss events from the initial state
    (health 100), health is in [0,100] after every update; a hit stores
    min(100, h+2) and a miss stores max(0, h-15). *)
Theorem C3_health_stays_in_range :
  forall (chart : list NoteData.t) (evs : list Event) (k : nat),
    let s := run (firstn k evs) (initial chart) in
    0 <= health s <= 100 /\
    (forall n g, health (onEvent (Hit n g) s) = Z.min 100 (health s + 2)) /\
    (forall n, health (onEvent (Miss n) s) = Z.max 0 (health s - 15)).
Proof.
  intros chart evs k s. repeat split.
  - apply (run_healthy (firstn k evs) (initial chart)). unfold healthy. cbn. lia.
  - apply (run_healthy (firstn k evs) (initial chart)). unfold healthy. cbn. lia.
  - intros n g. cbn [onEvent].
    destruct (handleNoteHit_fields (multiplier s) n g s) as (_ & _ & _ & Hh & _).
    exact Hh.
  - intros n. cbn [onEvent].
    destruct (handleNoteMiss_fields n s) as (_ & _ & Hh & _). exact Hh.
Qed.

(** A miss that is alone in its batch sets combo to 0 and multiplier to 1
    whatever the combo was and lowers health by 15; when that reaches 0 or
    less, health is stored as 0 and the GAME_OVER transition is queued with
    setTimeout: the phase is unchanged when the handler returns and becomes
    GAME_OVER when the queued callback runs. *)
Lemma miss_alone_resets_and_defers_game_over :
  forall (n : NoteData.t) (s : State),
    let s' := exec (handleNoteMiss n) s in
    combo s' = 0 /\ multiplier s' = 1 /\
    gameStatus s' = gameStatus s /\
    (0 < health s - 15 ->
       health s' = health s - 15 /\ timers s' = timers s) /\
    (health s - 15 <= 0 ->
       health s' = 0 /\
       timers s' = timers s ++ [EndGame false] /\
       gameStatus (exec (endGame false) s') = GAME_OVER /\
       (timers s = [] -> gameStatus (exec runTimer s') = GAME_OVER)).
Proof.
  intros n s s'.
  destruct (handleNoteMiss_fields n s) as (Hc & Hm & Hh & Hg & _ & Ht).
  fold s' in Hc, Hm, Hh, Hg, Ht.
  repeat split; try assumption.
  - lia.
  - destruct (Z.leb_spec (health s - 15) 0); [ lia | exact Ht ].
  - lia.
  - destruct (Z.leb_spec (health s - 15) 0); [ exact Ht | lia ].
  - intros Hempty. unfold exec, runTimer.
    destruct (Z.leb_spec (health s - 15) 0) as [_ | Hgt]; [ | lia ].
    rewrite Ht, Hempty. reflexivity.
Qed.

(** The scenario of the document: a session is started, health comes down
    to 15, and one more miss stores 0 and queues the end of the game; the
    phase is still PLAYING until the queued callback has run. *)
Lemma miss_at_health_15 :
  let playing := exec (startGame Sample.envOk)
                      (with_gameStatus IDLE (initial [Sample.note1])) in
  let s := run (repeat (Miss Sample.note1) 5 ++
                repeat (Hit Sample.note1 true) 10 ++
                repeat (Miss Sample.note1) 2) playing in
  let s' := onEvent (Miss Sample.note1) s in
  health s = 15 /\ timers s = [] /\
  health s' = 0 /\ combo s' = 0 /\ multiplier s' = 1 /\
  gameStatus s' = PLAYING /\ timers s' = [EndGame false] /\
  gameStatus (exec runTimer s') = GAME_OVER /\
  timers (exec runTimer s') = [].
Proof. vm_compute. repeat split. Qed.

(** What [startGame] leaves behind once the camera guard and the audio
    context are passed, whether [play()] fulfils or not. *)
Lemma startGame_fields (env : StartEnv) (s : State) :
  isCameraReady env = true ->
  audioCtxSuspended env && negb (resumeResolves env) = false ->
  let r := startGame env s in
  fst r = Fulfilled /\
  score (snd r) = 0 /\ combo (snd r) = 0 /\
  multiplier (snd r) = 1 /\ health (snd r) = 100 /\
  DEMO_CHART (snd r) = map resetNote (DEMO_CHART s) /\
  timers (snd r) = timers s /\
  gameStatus (snd r) = (if playResolves env then PLAYING else gameStatus s) /\
  alerts (snd r) =
    (if playResolves env then alerts s
     else alerts s ++
          ["Could not start game timer. Please interact with the page first."%string]).
Proof.
  intros Hcam Hctx. unfold startGame. rewrite Hcam, Hctx. cbn [negb].
  destruct (playResolves env); run_handler; repeat split.
Qed.

Lemma startGame_not_ready (env : StartEnv) (s : State) :
  isCameraReady env = false -> startGame env s = (Fulfilled, s).
Proof. intros H. unfold startGame. rewrite H. reflexivity. Qed.

Lemma resetNote_fields (n : NoteData.t) :
  NoteData.hit (resetNote n) = Some false /\
  NoteData.missed (resetNote n) = Some false /\
  NoteData.hitTime (resetNote n) = NoteData.hitTime n /\
  sameSchedule n (resetNote n).
Proof. unfold sameSchedule. cbn. repeat split. Qed.

(** C5 (as amended): entering PLAYING sets [hit] and [missed] of every
    chart note to false and changes no other field of any note: id, time,
    lineIndex, lineLayer, type, cutDirection and also hitTime keep their
    values. *)
Theorem C5_start_resets_hit_and_missed_only :
  forall (env : StartEnv) (s : State),
    gameStatus s <> PLAYING ->
    gameStatus (exec (startGame env) s) = PLAYING ->
    Forall2 (fun n n' =>
               NoteData.hit n' = Some false /\
               NoteData.missed n' = Some false /\
               NoteData.hitTime n' = NoteData.hitTime n /\
               sameSchedule n n')
            (DEMO_CHART s) (DEMO_CHART (exec (startGame env) s)).
Proof.
  intros env s Hbefore Hafter. unfold exec in *.
  destruct (isCameraReady env) eqn:Hcam.
  2:{ rewrite (startGame_not_ready env s Hcam) in Hafter. contradiction. }
  destruct (audioCtxSuspended env && negb (resumeResolves env)) eqn:Hctx.
  { unfold startGame in Hafter. rewrite Hcam, Hctx in Hafter. contradiction. }
  destruct (startGame_fields env s Hcam Hctx) as (_ & _ & _ & _ & _ & Hchart & _).
  rewrite Hchart. clear.
  induction (DEMO_CHART s) as [| n l IH]; cbn [map]; constructor.
  - apply resetNote_fields.
  - exact IH.
Qed.

Lemma C5_start_resets_hit_and_missed_only_witness :
  Forall2 (fun n n' =>
             NoteData.hit n' = Some false /\
             NoteData.missed n' = Some false /\
             NoteData.hitTime n' = NoteData.hitTime n /\
             sameSchedule n n')
          [Sample.noteHit]
          (DEMO_CHART (exec (startGame Sample.envOk)
                            (with_gameStatus IDLE (initial [Sample.noteHit])))).
Proof.
  apply (C5_start_resets_hit_and_missed_only Sample.envOk
           (with_gameStatus IDLE (initial [Sample.noteHit]))).
  - discriminate.
  - reflexivity.
Defined.

(** C5 as stated fails: a note hit in an earlier session keeps its hitTime
    when the next session enters PLAYING, so it is not back in the
    unjudged state of the document. *)
Lemma C5_hitTime_survives_start :
  let s := with_gameStatus IDLE (initial [Sample.noteHit]) in
  let s' := exec (startGame Sample.envOk) s in
  gameStatus s = IDLE /\ gameStatus s' = PLAYING /\
  map NoteData.hitTime (DEMO_CHART s') = [Some (51 # 10)%Q] /\
  map NoteData.hitTime (DEMO_CHART s') <> [None] /\
  Exists (fun n' => ~ unjudged n') (DEMO_CHART s').
Proof.
  cbn. repeat split; try discriminate.
  constructor. unfold unjudged. cbn. intros (_ & _ & H). discriminate.
Qed.

(** C9: when the start action runs and [play()] is refused, the phase is
    the one it was, the promise of [startGame] is fulfilled (the rejection
    is caught and reported by an alert), and a later start whose [play()]
    succeeds enters PLAYING. *)
Theorem C9_failed_start_keeps_phase_and_can_retry :
  forall (env : StartEnv) (s : State),
    isCameraReady env = true ->
    audioCtxSuspended env && negb (resumeResolves env) = false ->
    playResolves env = false ->
    let r := startGame env s in
    gameStatus (snd r) = gameStatus s /\
    fst r = Fulfilled /\
    alerts (snd r) =
      alerts s ++ ["Could not start game timer. Please interact with the page first."%string] /\
    (forall env',
        isCameraReady env' = true ->
        audioCtxSuspended env' && negb (resumeResolves env') = false ->
        playResolves env' = true ->
        fst (startGame env' (snd r)) = Fulfilled /\
        gameStatus (snd (startGame env' (snd r))) = PLAYING).
Proof.
  intros env s Hcam Hctx Hplay r.
  destruct (startGame_fields env s Hcam Hctx) as (Hf & _ & _ & _ & _ & _ & _ & Hg & Ha).
  fold r in Hf, Hg, Ha. rewrite Hplay in Hg, Ha.
  split; [ exact Hg | ]. split; [ exact Hf | ]. split; [ exact Ha | ].
  intros env' Hcam' Hctx' Hplay'.
  destruct (startGame_fields env' (snd r) Hcam' Hctx')
      as (Hf' & _ & _ & _ & _ & _ & _ & Hg' & _).
    rewrite Hplay' in Hg'. split; assumption.
Qed.

Lemma C9_failed_start_keeps_phase_and_can_retry_witness :
  let r := startGame Sample.envPlayFails (with_gameStatus IDLE (initial [Sample.note1])) in
  gameStatus (snd r) = IDLE /\
  gameStatus (snd (startGame Sample.envOk (snd r))) = PLAYING.
Proof.
  destruct (C9_failed_start_keeps_phase_and_can_retry Sample.envPlayFails
              (with_gameStatus IDLE (initial [Sample.note1]))
              eq_refl eq_refl eq_refl) as (Hg & _ & _ & Hretry).
  split.
  - exact Hg.
  - exact (proj2 (Hretry Sample.envOk eq_refl eq_refl eq_refl)).
Defined.

(** C10: the start action is not atomic: when [play()] is refused and the
    phase stays as it was, score, combo, multiplier and health have
    already been reset to 0, 0, 1, 100 and [hit] and [missed] of every
    chart note have already been set to false. *)
Theorem C10_failed_start_has_already_reset :
  forall (env : StartEnv) (s : State),
    isCameraReady env = true ->
    audioCtxSuspended env && negb (resumeResolves env) = false ->
    playResolves env = false ->
    let s' := exec (startGame env) s in
    gameStatus s' = gameStatus s /\
    score s' = 0 /\ combo s' = 0 /\ multiplier s' = 1 /\ health s' = 100 /\
    length (DEMO_CHART s') = length (DEMO_CHART s) /\
    Forall (fun n' => NoteData.hit n' = Some false /\ NoteData.missed n' = Some false)
           (DEMO_CHART s').
Proof.
  intros env s Hcam Hctx Hplay s'. unfold s', exec.
  destruct (startGame_fields env s Hcam Hctx)
    as (_ & Hsc & Hco & Hmu & Hhe & Hchart & _ & Hg & _).
  rewrite Hplay in Hg. rewrite Hchart.
  repeat split; try assumption.
  - apply length_map.
  - apply Forall_map, Forall_forall. intros n _. cbn. split; reflexivity.
Qed.

Lemma C10_failed_start_has_already_reset_witness :
  let s := exec (handleNoteMiss Sample.note1)
             (with_gameStatus IDLE (initial [Sample.noteHit])) in
  let s' := exec (startGame Sample.envPlayFails) s in
  health s = 85 /\ gameStatus s' = IDLE /\ health s' = 100 /\
  Forall (fun n' => NoteData.hit n' = Some false /\ NoteData.missed n' = Some false)
         (DEMO_CHART s').
Proof.
  destruct (C10_failed_start_has_already_reset Sample.envPlayFails
              (exec (handleNoteMiss Sample.note1)
                    (with_gameStatus IDLE (initial [Sample.noteHit])))
              eq_refl eq_refl eq_refl) as (Hg & _ & _ & _ & Hh & _ & Hall).
  split; [ reflexivity | ].
  split; [ exact Hg | ].
  split; [ exact Hh | exact Hall ].
Defined.

End AppProps.

(** * Properties of the dwell selector *)

Module CursorProps.
Import HandCursor.

Local Open Scope Q_scope.

(** [progress >= 1] holds exactly when the full threshold has elapsed. *)
Lemma reaches_one (elapsed : Q) :
  Qle_bool 1 (Qmin 1 (elapsed / HOVER_THRESHOLD_MS)) = true <-> 1000 <= elapsed.
Proof.
  unfold HOVER_THRESHOLD_MS. rewrite Qle_bool_iff. split; intros H.
  - assert (H1 : 1 <= elapsed / 1000)
      by (eapply Qle_trans; [ exact H | apply Q.le_min_r ]).
    unfold Qdiv in H1. change (/ 1000) with (1 # 1000) in H1. lra.
  - apply Q.min_glb; [ lra | ].
    unfold Qdiv. change (/ 1000) with (1 # 1000). lra.
Qed.

Lemma below_one (elapsed : Q) :
  Qle_bool 1 (Qmin 1 (elapsed / HOVER_THRESHOLD_MS)) = false <-> elapsed < 1000.
Proof.
  split; intros H.
  - destruct (Qlt_le_dec elapsed 1000) as [Hlt | Hge]; [ exact Hlt | ].
    apply reaches_one in Hge. congruence.
  - destruct (Qle_bool 1 (Qmin 1 (elapsed / HOVER_THRESHOLD_MS))) eqn:E; [ | reflexivity ].
    apply reaches_one in E. lra.
Qed.

Lemma min_below_one (elapsed : Q) :
  elapsed < 1000 ->
  Qmin 1 (elapsed / HOVER_THRESHOLD_MS) == elapsed / 1000.
Proof.
  intros H. unfold HOVER_THRESHOLD_MS. apply Q.min_r.
  unfold Qdiv. change (/ 1000) with (1 # 1000). lra.
Qed.

Lemma sameTarget_refl (b : Element) : sameTarget (Some b) b = true.
Proof. apply Nat.eqb_refl. Qed.

Lemma sameTarget_true (last : option Element) (b : Element) :
  sameTarget last b = true <-> last = Some b.
Proof.
  destruct last as [t |]; cbn; [ | split; discriminate ].
  rewrite Nat.eqb_eq. split; congruence.
Qed.

(** The frame that activates: same target, threshold elapsed. *)
Lemma hover_click (b : Element) (now after : Q)
      (cur : CursorState) (st : TargetState) (d : Dom) :
  lastTarget st = Some b ->
  1000 <= now - startTime st ->
  hover (Some b) now after cur st d =
    (mkCursor (x cur) (y cur) (active cur) 0 true (color cur),
     mkTarget (after + 500) (Some b),
     mkDom (hoverClass d ∪ {[ b ]}) (clicks d ++ [b])).
Proof.
  intros Hlast Hel. unfold hover. rewrite Hlast, sameTarget_refl. cbn [negb].
  apply reaches_one in Hel. rewrite Hel. reflexivity.
Qed.

(** A frame on the same target before the threshold. *)
Lemma hover_hold (b : Element) (now after : Q)
      (cur : CursorState) (st : TargetState) (d : Dom) :
  lastTarget st = Some b ->
  now - startTime st < 1000 ->
  hover (Some b) now after cur st d =
    (mkCursor (x cur) (y cur) (active cur)
              (Qmin 1 ((now - startTime st) / HOVER_THRESHOLD_MS)) true (color cur),
     st,
     mkDom (hoverClass d ∪ {[ b ]}) (clicks d)).
Proof.
  intros Hlast Hel. unfold hover. rewrite Hlast, sameTarget_refl. cbn [negb].
  apply below_one in Hel. rewrite Hel. reflexivity.
Qed.

(** A frame on a button that is not the recorded target. *)
Lemma hover_new (b : Element) (now after : Q)
      (cur : CursorState) (st : TargetState) (d : Dom) :
  lastTarget st <> Some b ->
  hover (Some b) now after cur st d =
    (mkCursor (x cur) (y cur) (active cur) 0 true (color cur),
     mkTarget now (Some b),
     mkDom (hoverClass d ∪ {[ b ]}) (clicks d)).
Proof.
  intros Hlast. unfold hover.
  destruct (sameTarget (lastTarget st) b) eqn:E.
  - apply sameTarget_true in E. contradiction.
  - reflexivity.
Qed.

Lemma fires_click (b : Element) (t : Tick) (cur : CursorState)
      (st : TargetState) (d : Dom) :
  target t = Some b -> lastTarget st = Some b ->
  1000 <= tnow t - startTime st ->
  fires t (cur, st, d) = true.
Proof.
  intros Ht Hlast Hel. unfold fires, tick. rewrite Ht.
  rewrite (hover_click b _ _ cur st d Hlast Hel). cbn [snd clicks].
  rewrite length_app. cbn [length].
  destruct (Nat.eqb_spec (length (clicks d) + 1) (length (clicks d))) as [E | _];
    [ lia | reflexivity ].
Qed.

Lemma fires_hold (b : Element) (t : Tick) (cur : CursorState)
      (st : TargetState) (d : Dom) :
  target t = Some b -> lastTarget st = Some b ->
  tnow t - startTime st < 1000 ->
  fires t (cur, st, d) = false.
Proof.
  intros Ht Hlast Hel. unfold fires, tick. rewrite Ht.
  rewrite (hover_hold b _ _ cur st d Hlast Hel). cbn [snd clicks].
  rewrite Nat.eqb_refl. reflexivity.
Qed.

(** While the same button is held below the threshold, the target state
    does not move and the progress is a function of the clock. *)
Lemma progresses_hold (b : Element) (st : TargetState) (ts : list Tick) :
  lastTarget st = Some b ->
  Forall (fun t => target t = Some b /\ tnow t - startTime st < 1000) ts ->
  forall cur d,
    progresses ts (cur, st, d) =
      map (fun t => Qmin 1 ((tnow t - startTime st) / HOVER_THRESHOLD_MS)) ts /\
    clickTimes ts (cur, st, d) = [].
Proof.
  intros Hlast Hall. induction Hall as [| t ts [Ht Hel] _ IH]; intros cur d.
  - split; reflexivity.
  - cbn [progresses clickTimes map].
    rewrite (fires_hold b t cur st d Ht Hlast Hel).
    unfold tick at 1 2 3. rewrite Ht, (hover_hold b _ _ cur st d Hlast Hel).
    cbn [fst progress app].
    destruct (IH (mkCursor (x cur) (y cur) (active cur)
                    (Qmin 1 ((tnow t - startTime st) / HOVER_THRESHOLD_MS))
                    true (color cur))
                 (mkDom (hoverClass d ∪ {[ b ]}) (clicks d))) as [IHp IHc].
    rewrite IHp, IHc. split; reflexivity.
Qed.

Lemma progress_of_clock_mono (start t1 t2 : Q) :
  t1 <= t2 ->
  Qmin 1 ((t1 - start) / HOVER_THRESHOLD_MS)
  <= Qmin 1 ((t2 - start) / HOVER_THRESHOLD_MS).
Proof.
  intros H. apply Q.min_le_compat_l. unfold HOVER_THRESHOLD_MS, Qdiv.
  change (/ 1000) with (1 # 1000). lra.
Qed.

Lemma progress_of_clock_range (start t : Q) :
  start <= t -> t - start < 1000 ->
  0 <= Qmin 1 ((t - start) / HOVER_THRESHOLD_MS) /\
  Qmin 1 ((t - start) / HOVER_THRESHOLD_MS) < 1.
Proof.
  intros H0 H1. rewrite (min_below_one _ H1).
  unfold Qdiv. change (/ 1000) with (1 # 1000). lra.
Qed.

Lemma StronglySorted_map_mono {A B} (R : A -> A -> Prop) (R' : B -> B -> Prop)
      (f : A -> B) (l : list A) :
  (forall a a', R a a' -> R' (f a) (f a')) ->
  StronglySorted R l -> StronglySorted R' (map f l).
Proof.
  intros Hf Hs. induction Hs as [| a l _ IH Hall]; cbn [map]; constructor.
  - exact IH.
  - clear IH. induction Hall as [| a' l' Ha _ IH']; cbn [map]; constructor.
    + apply Hf, Ha.
    + exact IH'.
Qed.

(** During the cooldown and after it, a further click on the held button
    comes at least 1500 ms after the clock reading that followed the
    previous one. *)
Lemma clickTimes_after_cooldown (b : Element) (t0 : Q) (ts : list Tick) :
  Forall (fun t => target t = Some b /\ t0 <= tnow t /\ tnow t <= tafter t) ts ->
  forall cur st d,
    lastTarget st = Some b ->
    t0 + 500 <= startTime st ->
    Forall (fun c => t0 + 1500 <= c) (clickTimes ts (cur, st, d)).
Proof.
  intros Hall. induction Hall as [| t ts (Ht & Hnow & Hafter) _ IH];
    intros cur st d Hlast Hstart; cbn [clickTimes].
  - constructor.
  - destruct (Qlt_le_dec (tnow t - startTime st) 1000) as [Hel | Hel].
    + rewrite (fires_hold b t cur st d Ht Hlast Hel). cbn [app].
      unfold tick. rewrite Ht, (hover_hold b _ _ cur st d Hlast Hel).
      apply IH; assumption.
    + rewrite (fires_click b t cur st d Ht Hlast Hel). cbn [app].
      constructor; [ lra | ].
      unfold tick. rewrite Ht, (hover_click b _ _ cur st d Hlast Hel).
      apply IH; cbn [lastTarget startTime]; [ reflexivity | lra ].
Qed.

(** What one frame can do to the dwell start of a cursor, whatever is
    under the fingertip: a click needs 1000 ms since the start and moves
    it 500 ms past the second clock reading; otherwise the start is kept
    or set to the first clock reading. *)
Lemma tick_start (t : Tick) (cur : CursorState) (st : TargetState) (d : Dom) :
  let st' := snd (fst (tick t (cur, st, d))) in
  (fires t (cur, st, d) = true /\
   1000 <= tnow t - startTime st /\ startTime st' = tafter t + 500) \/
  (fires t (cur, st, d) = false /\
   (startTime st' = startTime st \/ startTime st' = tnow t)).
Proof.
  cbv zeta. unfold fires, tick, hover.
  destruct (target t) as [b |].
  - destruct (sameTarget (lastTarget st) b); cbn [negb].
    + destruct (Qle_bool 1 _) eqn:E.
      * left. cbn [fst snd clicks startTime]. apply reaches_one in E.
        rewrite length_app. cbn [length].
        destruct (Nat.eqb_spec (length (clicks d) + 1) (length (clicks d)));
          [ lia | ].
        repeat split. exact E.
      * right. cbn [fst snd clicks]. rewrite Nat.eqb_refl. split; [ reflexivity | ].
        left. reflexivity.
    + right. cbn [fst snd clicks startTime]. rewrite Nat.eqb_refl.
      split; [ reflexivity | ]. right. reflexivity.
  - right. destruct (lastTarget st); cbn [fst snd clicks startTime];
      rewrite Nat.eqb_refl; (split; [ reflexivity | left; reflexivity ]).
Qed.

(** Whatever one cursor hovers after a reading [t0] of the clock, with a
    dwell start not before [t0], its clicks come at [t0 + 1000] or later. *)
Lemma clickTimes_after_start (t0 : Q) (ts : list Tick) :
  Forall (fun t => t0 <= tnow t /\ tnow t <= tafter t) ts ->
  forall cur st d,
    t0 <= startTime st ->
    Forall (fun c => t0 + 1000 <= c) (clickTimes ts (cur, st, d)).
Proof.
  intros Hall. induction Hall as [| t ts (Hnow & Hafter) _ IH];
    intros cur st d Hstart; cbn [clickTimes].
  - constructor.
  - pose proof (tick_start t cur st d) as Hcases. cbv zeta in Hcases.
    destruct (tick t (cur, st, d)) as [[cur' st'] d'] eqn:Etick.
    cbn [fst snd] in Hcases.
    destruct Hcases as [(Hf & Hel & Hst) | (Hf & Hst)]; rewrite Hf; cbn [app].
    + constructor; [ lra | ]. apply IH. rewrite Hst. lra.
    + apply IH. destruct Hst as [Hst | Hst]; rewrite Hst; lra.
Qed.

Lemma hover_active (target : option Element) (now after : Q)
      (cur : CursorState) (st : TargetState) (d : Dom) :
  active (fst (fst (hover target now after cur st d))) = active cur.
Proof.
  unfold hover. destruct target as [b |]; [ | reflexivity ].
  destruct (negb (sameTarget (lastTarget st) b)); [ reflexivity | ].
  destruct (Qle_bool 1 _); reflexivity.
Qed.

(** With only a hand labelled 'Left' in the results and the other cursor
    hidden, a frame of the loop is one [hover] step of cursor 0. *)
Lemma updateLoop_left_hand_only (f : Frame) (h : Hand) (w : World) :
  results f = Some [h] ->
  categoryName h = "Left"%string ->
  active (at1 (cursors w)) = false ->
  let screenX := (1 - tip_x h) * innerWidth f in
  let screenY := tip_y h * innerHeight f in
  let c := at0 (cursors w) in
  let s' := hover (hitTest f screenX screenY) (now h) (nowAfterClick h)
              (mkCursor screenX (screenY + CURSOR_OFFSET_Y) true
                        (progress c) (hovering c) (color c))
              (at0 (internalState w)) (dom w) in
  updateLoop f w =
    mkWorld (mkTwo (fst (fst s')) (at1 (cursors w)))
            (mkTwo (snd (fst s')) (at1 (internalState w)))
            (snd s').
Proof.
  intros Hres Hleft Hoff. cbv zeta. unfold updateLoop. rewrite Hres.
  unfold iteration. cbn [nth_error index].
  unfold handSeen. rewrite Hleft.
  change (String.eqb "Left" "Right") with false. cbn [get].
  destruct (hover _ _ _ _ _ _) as [[cur st] d]. cbn [set fst snd].
  unfold handLost. cbn [get cursors at1]. rewrite Hoff. reflexivity.
Qed.

(** A hand labelled 'Right' that is alone in the results is processed at
    loop index 0 and then dropped at loop index 1, which is its own cursor
    slot: its cursor ends every frame hidden and without a target. *)
Lemma updateLoop_right_hand_only (f : Frame) (h : Hand) (w : World) :
  results f = Some [h] ->
  categoryName h = "Right"%string ->
  let w' := updateLoop f w in
  active (at1 (cursors w')) = false /\
  hovering (at1 (cursors w')) = false /\
  lastTarget (at1 (internalState w')) = None.
Proof.
  intros Hres Hright. cbv zeta. unfold updateLoop. rewrite Hres.
  unfold iteration. cbn [nth_error index].
  unfold handSeen. rewrite Hright, String.eqb_refl. cbn [get].
  pose proof (hover_active
    (hitTest f ((1 - tip_x h) * innerWidth f) (tip_y h * innerHeight f))
    (now h) (nowAfterClick h)
    (mkCursor ((1 - tip_x h) * innerWidth f)
              (tip_y h * innerHeight f + CURSOR_OFFSET_Y) true
              (progress (at1 (cursors w))) (hovering (at1 (cursors w)))
              (color (at1 (cursors w))))
    (at1 (internalState w)) (dom w)) as Hact.
  destruct (hover _ _ _ _ _ _) as [[cur st] d]. cbn [fst active] in Hact.
  unfold handLost. cbn [set get cursors at1]. rewrite Hact.
  cbn. repeat split.
Qed.

(** C6 (as amended): in a frame whose button is the one recorded for the
    cursor in the previous frame, with a dwell start that is not in the
    future: before 1000 ms have elapsed the progress is
    min(1, elapsed / 1000) = elapsed / 1000, in [0,1), and nothing is
    clicked; once 1000 ms have elapsed the button is clicked and the
    progress is stored as 0 in that same frame.  Over consecutive frames
    on that button before the activation the progress is non-decreasing.
    It is 0 when the hovered button changes or there is none. *)
Theorem C6_dwell_progress_until_activation :
  forall (b : Element) (cur : CursorState) (st : TargetState) (d : Dom)
         (now after : Q),
    lastTarget st = Some b ->
    startTime st <= now ->
    let elapsed := now - startTime st in
    let s' := hover (Some b) now after cur st d in
    let progress' := progress (fst (fst s')) in
    (elapsed < 1000 ->
       progress' = Qmin 1 (elapsed / HOVER_THRESHOLD_MS) /\
       progress' == elapsed / 1000 /\
       clicks (snd s') = clicks d) /\
    (1000 <= elapsed ->
       progress' = 0 /\ clicks (snd s') = clicks d ++ [b]) /\
    (0 <= progress' /\ progress' < 1) /\
    (forall ts,
       Forall (fun t => target t = Some b /\ startTime st <= tnow t /\
                        tnow t - startTime st < 1000) ts ->
       StronglySorted Qle (map tnow ts) ->
       StronglySorted Qle (progresses ts (cur, st, d)) /\
       Forall (fun p => 0 <= p /\ p < 1) (progresses ts (cur, st, d))) /\
    (forall b' now' after',
       b' <> b ->
       progress (fst (fst (hover (Some b') now' after' cur st d))) = 0) /\
    (forall now' after',
       progress (fst (fst (hover None now' after' cur st d))) = 0).
Proof.
  intros b cur st d now after Hlast Hstart elapsed s' progress'.
  assert (Hhold : elapsed < 1000 ->
            progress' = Qmin 1 (elapsed / HOVER_THRESHOLD_MS) /\
            clicks (snd s') = clicks d).
  { intros Hel. unfold progress', s'.
    rewrite (hover_hold b now after cur st d Hlast Hel). split; reflexivity. }
  assert (Hclick : 1000 <= elapsed ->
            progress' = 0 /\ clicks (snd s') = clicks d ++ [b]).
  { intros Hel. unfold progress', s'.
    rewrite (hover_click b now after cur st d Hlast Hel). split; reflexivity. }
  split; [ | split; [ exact Hclick | split; [ | split; [ | split ] ] ] ].
  - intros Hel. destruct (Hhold Hel) as [Hp Hc].
    split; [ exact Hp | split; [ | exact Hc ] ].
    rewrite Hp. apply min_below_one, Hel.
  - destruct (Qlt_le_dec elapsed 1000) as [Hel | Hel].
    + destruct (Hhold Hel) as [Hp _]. rewrite Hp.
      apply progress_of_clock_range; assumption.
    + destruct (Hclick Hel) as [Hp _]. rewrite Hp. split; lra.
  - intros ts Hall Hsorted.
    assert (Hall' : Forall (fun t => target t = Some b /\
                                     tnow t - startTime st < 1000) ts).
    { clear Hsorted. induction Hall as [| t l (Ht & _ & Hel) _ IH];
        constructor; [ split; assumption | exact IH ]. }
    destruct (progresses_hold b st ts Hlast Hall' cur d) as [Hp _].
    rewrite Hp. split.
    + rewrite <- (List.map_map tnow
                   (fun c => Qmin 1 ((c - startTime st) / HOVER_THRESHOLD_MS))).
      eapply StronglySorted_map_mono; [ | exact Hsorted ].
      intros t1 t2 Hle. apply progress_of_clock_mono, Hle.
    + clear Hp Hall' Hsorted.
      induction Hall as [| t l (_ & Hge & Hel) _ IH]; cbn [map]; constructor.
      * apply progress_of_clock_range; assumption.
      * exact IH.
  - intros b' now' after' Hne.
    rewrite (hover_new b' now' after' cur st d); [ reflexivity | ].
    rewrite Hlast. congruence.
  - intros now' after'. reflexivity.
Qed.

Lemma C6_dwell_progress_until_activation_witness :
  let s1 := tick (Sample.onButton 0) Sample.dwell0 in
  lastTarget (snd (fst s1)) = Some 7%nat /\
  progress (fst (fst (tick (Sample.onButton 600) s1))) == 3 # 5 /\
  StronglySorted Qle
    (progresses [Sample.onButton 200; Sample.onButton 600; Sample.onButton 900] s1).
Proof.
  split; [ reflexivity | ].
  pose proof (C6_dwell_progress_until_activation 7%nat
                (fst (fst (tick (Sample.onButton 0) Sample.dwell0)))
                (snd (fst (tick (Sample.onButton 0) Sample.dwell0)))
                (snd (tick (Sample.onButton 0) Sample.dwell0))
                600 600 eq_refl) as H.
  cbv zeta in H.
  assert (Hstart : startTime (snd (fst (tick (Sample.onButton 0) Sample.dwell0)))
                   <= 600) by (vm_compute; discriminate).
  destruct (H Hstart) as (Hhold & _ & _ & Hrun & _).
  split.
  - assert (Hel : 600 - startTime (snd (fst (tick (Sample.onButton 0) Sample.dwell0)))
                  < 1000) by reflexivity.
    destruct (Hhold Hel) as (_ & Hp & _).
    eapply Qeq_trans; [ exact Hp | reflexivity ].
  - apply (Hrun [Sample.onButton 200; Sample.onButton 600; Sample.onButton 900]).
    + repeat constructor; vm_compute; discriminate.
    + repeat constructor; vm_compute; discriminate.
Defined.

(** C6 as stated fails in the frame in which the threshold is reached:
    the same button is hovered as in the previous frame and 1000 ms have
    elapsed, yet the stored progress is 0, not min(1, 1000/1000) = 1, and
    it is below the 0.9 of the previous frame. *)
Lemma C6_progress_drops_at_activation :
  let s2 := ticks [Sample.onButton 0; Sample.onButton 900] Sample.dwell0 in
  let s3 := tick (Sample.onButton 1000) s2 in
  lastTarget (snd (fst s2)) = Some 7%nat /\
  startTime (snd (fst s2)) = 0 /\
  progress (fst (fst s2)) == 9 # 10 /\
  progress (fst (fst s3)) = 0 /\
  ~ progress (fst (fst s3)) == Qmin 1 ((1000 - 0) / 1000) /\
  ~ progress (fst (fst s2)) <= progress (fst (fst s3)).
Proof.
  cbv zeta. split; [ reflexivity | ]. split; [ reflexivity | ].
  split; [ reflexivity | ]. split; [ reflexivity | ].
  split; intros H; vm_compute in H; [ discriminate | apply H; reflexivity ].
Qed.

(** During the cooldown that follows a click the elapsed time is negative
    and so is the stored progress: 100 ms after a click at 1000 ms it is
    -0.4. *)
Lemma cooldown_progress_is_negative :
  let s3 := ticks [Sample.onButton 0; Sample.onButton 900; Sample.onButton 1000]
                  Sample.dwell0 in
  let s4 := tick (Sample.onButton 1100) s3 in
  startTime (snd (fst s3)) = 1500 /\
  progress (fst (fst s4)) == - (2 # 5) /\
  progress (fst (fst s4)) < 0.
Proof. cbv zeta. repeat split. Qed.

(** C8: when the progress of the button held by a cursor reaches 1
    (1000 ms elapsed), that frame calls click() exactly once and stores
    the progress 0; whatever that cursor hovers afterwards, and so while
    it stays on the same button, it calls click() again no sooner than
    500 ms after that frame. *)
Theorem C8_one_click_then_cooldown :
  forall (b : Element) (cur : CursorState) (st : TargetState) (d : Dom)
         (now after : Q) (ts : list Tick),
    lastTarget st = Some b ->
    1000 <= now - startTime st ->
    now <= after ->
    Forall (fun t => after <= tnow t /\ tnow t <= tafter t) ts ->
    let s1 := hover (Some b) now after cur st d in
    1 <= Qmin 1 ((now - startTime st) / HOVER_THRESHOLD_MS) /\
    clicks (snd s1) = clicks d ++ [b] /\
    fires (mkTick (Some b) now after) (cur, st, d) = true /\
    progress (fst (fst s1)) = 0 /\
    startTime (snd (fst s1)) = after + 500 /\
    Forall (fun c => now + 500 <= c) (clickTimes ts s1) /\
    (Forall (fun t => target t = Some b) ts ->
     Forall (fun c => now + 1500 <= c) (clickTimes ts s1)).
Proof.
  intros b cur st d now after ts Hlast Hel Hclock Hall s1.
  split.
  { apply Qle_bool_iff, reaches_one, Hel. }
  unfold s1. rewrite (hover_click b now after cur st d Hlast Hel).
  cbn [fst snd clicks progress startTime].
  split; [ reflexivity | ].
  split; [ apply (fires_click b); [ reflexivity | exact Hlast | exact Hel ] | ].
  split; [ reflexivity | ]. split; [ reflexivity | ].
  split.
  - assert (Hlate : Forall (fun c => after + 1000 <= c)
              (clickTimes ts
                 (mkCursor (x cur) (y cur) (active cur) 0 true (color cur),
                  mkTarget (after + 500) (Some b),
                  mkDom (hoverClass d ∪ {[ b ]}) (clicks d ++ [b])))).
    { apply (clickTimes_after_start after ts Hall). cbn [startTime]. lra. }
    revert Hlate. generalize (clickTimes ts
                 (mkCursor (x cur) (y cur) (active cur) 0 true (color cur),
                  mkTarget (after + 500) (Some b),
                  mkDom (hoverClass d ∪ {[ b ]}) (clicks d ++ [b]))).
    intros l Hlate. induction Hlate as [| c l Hc _ IH]; constructor.
    + lra.
    + exact IH.
  - intros Hsame.
    assert (Hall' : Forall (fun t => target t = Some b /\ after <= tnow t /\
                                     tnow t <= tafter t) ts).
    { clear - Hall Hsame. induction Hall as [| t l Ht _ IH].
      - constructor.
      - inversion Hsame as [| ? ? Hb Hrest]; subst.
        constructor; [ split; assumption | apply IH, Hrest ]. }
    assert (Hlate : Forall (fun c => after + 1500 <= c)
              (clickTimes ts
                 (mkCursor (x cur) (y cur) (active cur) 0 true (color cur),
                  mkTarget (after + 500) (Some b),
                  mkDom (hoverClass d ∪ {[ b ]}) (clicks d ++ [b])))).
    { apply (clickTimes_after_cooldown b after ts Hall');
        cbn [lastTarget startTime]; [ reflexivity | lra ]. }
    revert Hlate. generalize (clickTimes ts
                 (mkCursor (x cur) (y cur) (active cur) 0 true (color cur),
                  mkTarget (after + 500) (Some b),
                  mkDom (hoverClass d ∪ {[ b ]}) (clicks d ++ [b]))).
    intros l Hlate. induction Hlate as [| c l Hc _ IH]; constructor.
    + lra.
    + exact IH.
Qed.

Lemma C8_one_click_then_cooldown_witness :
  let s2 := ticks [Sample.onButton 0; Sample.onButton 900] Sample.dwell0 in
  let s3 := tick (Sample.onButton 1000) s2 in
  clicks (snd s3) = [7%nat] /\
  clickTimes [Sample.onButton 1100; Sample.onButton 1400; Sample.onButton 2499;
              Sample.onButton 2500; Sample.onButton 2600] s3 = [2500] /\
  Forall (fun c => 1000 + 500 <= c)
    (clickTimes [Sample.onButton 1100; Sample.onButton 1400; Sample.onButton 2499;
                 Sample.onButton 2500; Sample.onButton 2600] s3).
Proof.
  split; [ reflexivity | ]. split; [ reflexivity | ].
  refine (proj1 (proj2 (proj2 (proj2 (proj2 (proj2
    (C8_one_click_then_cooldown 7%nat
       (fst (fst (ticks [Sample.onButton 0; Sample.onButton 900] Sample.dwell0)))
       (snd (fst (ticks [Sample.onButton 0; Sample.onButton 900] Sample.dwell0)))
       (snd (ticks [Sample.onButton 0; Sample.onButton 900] Sample.dwell0))
       1000 1000
       [Sample.onButton 1100; Sample.onButton 1400; Sample.onButton 2499;
        Sample.onButton 2500; Sample.onButton 2600]
       eq_refl _ _ _))))))).
  - vm_compute; discriminate.
  - vm_compute; discriminate.
  - repeat constructor; vm_compute; discriminate.
Defined.

(** Each cursor dwells on its own: two hands that hold the same button,
    the second from 100 ms after the first, click it at 1000 ms and again
    at 1100 ms. *)
Lemma two_cursors_click_independently :
  let both t := Sample.layout (Some [Sample.leftOnButton t; Sample.rightOnButton t]) in
  let w := runFrames
             [Sample.layout (Some [Sample.leftOnButton 0]);
              both 100; both 1000; both 1100]
             initial in
  let w' := runFrames
              [Sample.layout (Some [Sample.leftOnButton 0]); both 100; both 1000]
              initial in
  clicks (dom w') = [7%nat] /\ clicks (dom w) = [7%nat; 7%nat].
Proof. vm_compute. split; reflexivity. Qed.

(** C7, the loop evaluated where a hand is lost mid-dwell.  The left hand
    has held button 7 for 600 ms (progress 0.6, button marked).  A frame
    without hands hides the cursor and forgets the target, but the stored
    progress is still 0.6 and button 7 keeps its 'data-hand-hover' class,
    whereas a frame in which the hand moves off the button stores 0 and
    removes the class.  When the left hand is lost while another hand
    stays in the results, cursor 0 keeps its target and start time as
    well, and the hand coming back on the button 1100 ms later clicks at
    once. *)
Theorem C7_hand_lost_keeps_progress_and_marker :
  let w := Sample.midDwell in
  let lost := updateLoop (Sample.layout (Some [])) w in
  let movedOff := updateLoop (Sample.layout (Some [Sample.leftOffButton 700])) w in
  let back := updateLoop (Sample.layout (Some [Sample.leftOnButton 700])) lost in
  let lostBesideRight :=
    updateLoop (Sample.layout (Some [Sample.rightOffButton 700])) w in
  let backBesideRight :=
    updateLoop (Sample.layout (Some [Sample.leftOnButton 1700])) lostBesideRight in
  (lastTarget (at0 (internalState w)) = Some 7%nat /\
   progress (at0 (cursors w)) == 3 # 5 /\
   elements (hoverClass (dom w)) = [7%nat]) /\
  (active (at0 (cursors lost)) = false /\
   hovering (at0 (cursors lost)) = false /\
   lastTarget (at0 (internalState lost)) = None /\
   progress (at0 (cursors lost)) == 3 # 5 /\
   elements (hoverClass (dom lost)) = [7%nat]) /\
  (hovering (at0 (cursors movedOff)) = false /\
   lastTarget (at0 (internalState movedOff)) = None /\
   progress (at0 (cursors movedOff)) = 0 /\
   elements (hoverClass (dom movedOff)) = []) /\
  (progress (at0 (cursors back)) = 0 /\
   startTime (at0 (internalState back)) = 700 /\
   clicks (dom back) = []) /\
  (active (at0 (cursors lostBesideRight)) = true /\
   hovering (at0 (cursors lostBesideRight)) = true /\
   lastTarget (at0 (internalState lostBesideRight)) = Some 7%nat /\
   startTime (at0 (internalState lostBesideRight)) = 0 /\
   clicks (dom lostBesideRight) = [] /\
   clicks (dom backBesideRight) = [7%nat]).
Proof. vm_compute. repeat split. Qed.

End CursorProps.

(** * Further properties of the scoring state machine *)

Module AppExtra.
Import App Spec Machine AppProps.

Local Open Scope Z_scope.

Lemma sameCounters_refl (s : State) : sameCounters s s.
Proof. repeat split. Qed.

Lemma endGame_counters (v : bool) (s : State) : sameCounters s (exec (endGame v) s).
Proof. repeat split. Qed.

Lemma runTimer_counters (s : State) : sameCounters s (exec runTimer s).
Proof.
  unfold exec, runTimer. destruct (timers s) as [| [v] rest]; repeat split.
Qed.

Lemma cameraEffect_counters (r : bool) (s : State) :
  sameCounters s (exec (cameraEffect r) s).
Proof.
  unfold exec, cameraEffect. destruct (gameStatus s), r; repeat split.
Qed.

(** The three ways [startGame] can end. *)
Lemma startGame_cases (env : StartEnv) (s : State) :
  exec (startGame env) s = s \/
  (isCameraReady env = true /\
   score (exec (startGame env) s) = 0 /\ combo (exec (startGame env) s) = 0 /\
   multiplier (exec (startGame env) s) = 1 /\ health (exec (startGame env) s) = 100 /\
   DEMO_CHART (exec (startGame env) s) = map resetNote (DEMO_CHART s) /\
   timers (exec (startGame env) s) = timers s /\
   gameStatus (exec (startGame env) s)
     = if playResolves env then PLAYING else gameStatus s).
Proof.
  destruct (isCameraReady env) eqn:Hcam.
  - destruct (audioCtxSuspended env && negb (resumeResolves env)) eqn:Hctx.
    + left. unfold exec, startGame. rewrite Hcam, Hctx. reflexivity.
    + right. unfold exec.
      destruct (startGame_fields env s Hcam Hctx)
        as (_ & H1 & H2 & H3 & H4 & H5 & H6 & H7 & _).
      repeat split; assumption.
  - left. unfold exec. rewrite (startGame_not_ready env s Hcam). reflexivity.
Qed.

Lemma runActions_snoc (acts : list Action) (a : Action) (s : State) :
  runActions (acts ++ [a]) s = step a (runActions acts s).
Proof. unfold runActions. rewrite fold_left_app. reflexivity. Qed.

Lemma step_onlyGameOverQueued (a : Action) (s : State) :
  onlyGameOverQueued s -> onlyGameOverQueued (step a s).
Proof.
  unfold onlyGameOverQueued. intros Hs.
  destruct a as [r | env | n g | n | | |]; cbn [step].
  - unfold exec, cameraEffect. destruct (gameStatus s), r; exact Hs.
  - destruct (startGame_cases env s) as [E | (_ & _ & _ & _ & _ & _ & Ht & _)].
    + rewrite E. exact Hs.
    + rewrite Ht. exact Hs.
  - cbn [onEvent].
    destruct (handleNoteHit_fields (multiplier s) n g s) as (_ & _ & _ & _ & _ & Ht & _).
    rewrite Ht. exact Hs.
  - cbn [onEvent].
    destruct (handleNoteMiss_fields n s) as (_ & _ & _ & _ & _ & Ht).
    rewrite Ht. destruct (health s - 15 <=? 0); [ | exact Hs ].
    apply Forall_app. split; [ exact Hs | repeat constructor ].
  - exact Hs.
  - unfold exec, runTimer. destruct (timers s) as [| [v] rest] eqn:E.
    + cbn. rewrite E. constructor.
    + cbn. inversion Hs; assumption.
  - exact Hs.
Qed.

Lemma runActions_onlyGameOverQueued (acts : list Action) (s : State) :
  onlyGameOverQueued s -> onlyGameOverQueued (runActions acts s).
Proof.
  intros Hs. induction acts as [| a acts IH] using rev_ind.
  - exact Hs.
  - rewrite runActions_snoc. apply step_onlyGameOverQueued, IH.
Qed.

(** X2: in a state reached by any run of handlers, an action that the
    rendered tree offers either keeps the phase or makes one of five moves:
    LOADING to IDLE by the camera effect; IDLE to PLAYING by a start whose
    camera is ready and whose play() resolved; to GAME_OVER by a queued
    timer; to VICTORY by the song end, never from LOADING; GAME_OVER or
    VICTORY to IDLE by Play Again.  In particular LOADING is never
    entered again. *)
Theorem offered_actions_follow_the_phase_graph :
  forall (chart : list NoteData.t) (acts : list Action) (a : Action),
    let s := runActions acts (initial chart) in
    offered a s = true ->
    let s' := step a s in
    gameStatus s' = gameStatus s \/
    (gameStatus s = LOADING /\ gameStatus s' = IDLE /\ a = CameraEffect true) \/
    (gameStatus s = IDLE /\ gameStatus s' = PLAYING /\
     exists env, a = Start env /\ isCameraReady env = true /\ playResolves env = true) \/
    (gameStatus s' = GAME_OVER /\ a = Timer) \/
    (gameStatus s <> LOADING /\ gameStatus s' = VICTORY /\ a = SongEnd) \/
    ((gameStatus s = GAME_OVER \/ gameStatus s = VICTORY) /\
     gameStatus s' = IDLE /\ a = PlayAgain).
Proof.
  intros chart acts a s Hoff s'.
  assert (Hq : onlyGameOverQueued s).
  { apply runActions_onlyGameOverQueued. constructor. }
  unfold s'. clearbody s. clear s'.
  destruct a as [r | env | n g | n | | |]; cbn [step offered] in *.
  - unfold exec, cameraEffect.
    destruct (gameStatus s) eqn:Eg; try (left; cbn; exact Eg).
    destruct r; [ right; left; repeat split | left; cbn; exact Eg ].
  - unfold startButtonShown in Hoff. apply andb_prop in Hoff as [Hidle Hcam].
    assert (Eg : gameStatus s = IDLE)
      by (destruct (gameStatus s); try discriminate Hidle; reflexivity).
    destruct (startGame_cases env s) as [E | (_ & _ & _ & _ & _ & _ & _ & Hg)].
    + left. rewrite E. reflexivity.
    + rewrite Hg. destruct (playResolves env) eqn:Hplay.
      * right. right. left.
        split; [ exact Eg | split; [ reflexivity | exists env; auto ] ].
      * left. reflexivity.
  - left. cbn [onEvent].
    destruct (handleNoteHit_fields (multiplier s) n g s) as (_ & _ & _ & _ & Hg & _).
    exact Hg.
  - left. cbn [onEvent].
    destruct (handleNoteMiss_fields n s) as (_ & _ & _ & Hg & _). exact Hg.
  - right. right. right. right. left.
    unfold gameSceneMounted in Hoff.
    split; [ | split; reflexivity ].
    intros E. rewrite E in Hoff. discriminate.
  - unfold exec, runTimer. destruct (timers s) as [| t rest] eqn:Et; [ discriminate | ].
    unfold onlyGameOverQueued in Hq. rewrite Et in Hq. inversion Hq as [| ? ? Ht _]; subst.
    right. right. right. left. split; reflexivity.
  - right. right. right. right. right.
    unfold playAgainShown in Hoff. apply orb_prop in Hoff.
    split; [ | split; reflexivity ].
    destruct (gameStatus s); cbn in Hoff; destruct Hoff; try discriminate; auto.
Qed.

Lemma offered_actions_follow_the_phase_graph_witness :
  let s := runActions [CameraEffect true] (initial [Sample.note1]) in
  gameStatus s = IDLE /\ gameStatus (step (Start Sample.envOk) s) = PLAYING.
Proof.
  split; [ reflexivity | ].
  destruct (offered_actions_follow_the_phase_graph [Sample.note1]
              [CameraEffect true] (Start Sample.envOk) eq_refl)
    as [H | [H | [H | [H | [H | H]]]]].
  - reflexivity.
  - destruct H as (H & _). discriminate H.
  - destruct H as (_ & H & _). exact H.
  - destruct H as (_ & H). discriminate H.
  - destruct H as (_ & _ & H). discriminate H.
  - destruct H as (_ & _ & H). discriminate H.
Defined.

Lemma run_repeat_succ (e : Event) (k : nat) (s : State) :
  run (repeat e (S k)) s = onEvent e (run (repeat e k) s).
Proof.
  cbn [repeat]. rewrite repeat_cons. apply run_snoc.
Qed.

(** X5: [k] misses in a row from health [h >= 1] leave health
    max(0, h - 15k); the first (h - 1) / 15 of them queue nothing and each
    later one queues one more [endGame(false)] callback, so from full
    health the 7th miss is the first to queue one.  The phase does not
    move until a callback runs. *)
Theorem misses_in_a_row :
  forall (n : NoteData.t) (k : nat) (s : State),
    1 <= health s ->
    let s' := run (repeat (Miss n) k) s in
    health s' = Z.max 0 (health s - 15 * Z.of_nat k) /\
    timers s' = timers s ++
                repeat (EndGame false) (k - Z.to_nat ((health s - 1) / 15)) /\
    gameStatus s' = gameStatus s /\ score s' = score s.
Proof.
  intros n k s Hh. cbv zeta. induction k as [| k IH].
  - cbn. rewrite app_nil_r. repeat split. lia.
  - rewrite run_repeat_succ. cbn [onEvent].
    destruct IH as (IHh & IHt & IHg & IHs).
    destruct (handleNoteMiss_fields n (run (repeat (Miss n) k) s))
      as (_ & _ & Eh & Eg & Es & Et).
    rewrite Eh, Eg, Es, Et, IHh, IHt, IHg, IHs.
    split; [ lia | ]. split; [ | split; reflexivity ].
    assert (Hq : 0 <= (health s - 1) / 15) by (apply Z.div_pos; lia).
    pose proof (Z.div_mod (health s - 1) 15 ltac:(lia)) as Hdm.
    pose proof (Z.mod_pos_bound (health s - 1) 15 ltac:(lia)) as Hmb.
    destruct (Z.leb_spec (Z.max 0 (health s - 15 * Z.of_nat k) - 15) 0) as [Hle | Hgt].
    + replace (S k - Z.to_nat ((health s - 1) / 15))%nat
        with (S (k - Z.to_nat ((health s - 1) / 15)))%nat by lia.
      rewrite <- app_assoc. f_equal.
      cbn [repeat]. symmetry. apply repeat_cons.
    + replace (S k - Z.to_nat ((health s - 1) / 15))%nat with 0%nat by lia.
      replace (k - Z.to_nat ((health s - 1) / 15))%nat with 0%nat by lia.
      reflexivity.
Qed.

Lemma misses_in_a_row_witness :
  let s6 := run (repeat (Miss Sample.note1) 6) (initial []) in
  let s7 := run (repeat (Miss Sample.note1) 7) (initial []) in
  let s9 := run (repeat (Miss Sample.note1) 9) (initial []) in
  (health s6 = 10 /\ timers s6 = []) /\
  (health s7 = 0 /\ timers s7 = [EndGame false]) /\
  (health s9 = 0 /\ timers s9 = [EndGame false; EndGame false; EndGame false]).
Proof.
  assert (H : 1 <= health (initial [])) by (cbn; lia).
  destruct (misses_in_a_row Sample.note1 6 (initial []) H) as (A1 & A2 & _).
  destruct (misses_in_a_row Sample.note1 7 (initial []) H) as (B1 & B2 & _).
  destruct (misses_in_a_row Sample.note1 9 (initial []) H) as (C1 & C2 & _).
  repeat split; assumption.
Defined.

(** X6: [k] hits in a row leave health min(100, h + 2k) for any starting
    health, raise the combo by [k], and touch neither the phase nor the
    timer queue: a hit never ends or revives a game by itself. *)
Theorem hits_in_a_row :
  forall (n : NoteData.t) (g : bool) (k : nat) (s : State),
    let s' := run (repeat (Hit n g) k) s in
    health s' = (if (0 <? Z.of_nat k) then Z.min 100 (health s + 2 * Z.of_nat k)
                 else health s) /\
    combo s' = combo s + Z.of_nat k /\
    timers s' = timers s /\ gameStatus s' = gameStatus s.
Proof.
  intros n g k s. cbv zeta. induction k as [| k IH].
  - cbn. repeat split. lia.
  - rewrite run_repeat_succ. cbn [onEvent].
    destruct IH as (IHh & IHc & IHt & IHg).
    destruct (handleNoteHit_fields (multiplier (run (repeat (Hit n g) k) s)) n g
                (run (repeat (Hit n g) k) s))
      as (Ec & _ & _ & Eh & Eg & Et & _).
    rewrite Ec, Eh, Eg, Et, IHh, IHc, IHt, IHg.
    repeat split; try lia.
    destruct (Z.ltb_spec 0 (Z.of_nat k)), (Z.ltb_spec 0 (Z.of_nat (S k))); lia.
Qed.

(** X7: the game over queued by a lethal miss wins over a song end that
    arrives before the callback runs: the phase goes PLAYING, VICTORY,
    GAME_OVER, the audio is paused and the queue is empty. *)
Theorem queued_game_over_overrides_victory :
  forall (n : NoteData.t) (s : State),
    health s <= 15 ->
    timers s = [] ->
    let missed := step (NoteMiss n) s in
    let ended := step SongEnd missed in
    let final := step Timer ended in
    gameStatus missed = gameStatus s /\
    gameStatus ended = VICTORY /\
    gameStatus final = GAME_OVER /\
    audioPaused final = true /\ timers final = [] /\
    score final = score s /\ health final = 0.
Proof.
  intros n s Hh Ht. cbv zeta. cbn [step onEvent].
  destruct (handleNoteMiss_fields n s) as (_ & _ & Eh & Eg & Es & Et).
  destruct (Z.leb_spec (health s - 15) 0) as [_ | Hgt]; [ | lia ].
  rewrite Ht in Et. cbn [app] in Et.
  remember (exec (handleNoteMiss n) s) as m eqn:Hm. clear Hm.
  split; [ exact Eg | ]. split; [ reflexivity | ].
  unfold exec, onSongEnd, runTimer, endGame, setGameStatus, bind. cbn.
  rewrite Et. cbn. rewrite Es, Eh. repeat split. lia.
Qed.

Lemma queued_game_over_overrides_victory_witness :
  let playing := exec (startGame Sample.envOk)
                      (with_gameStatus IDLE (initial [Sample.note1])) in
  let s := run (repeat (Miss Sample.note1) 6) playing in
  health s = 10 /\
  gameStatus (runActions [NoteMiss Sample.note1; SongEnd; Timer] s) = GAME_OVER.
Proof.
  split; [ reflexivity | ].
  exact (proj1 (proj2 (proj2
    (queued_game_over_overrides_victory Sample.note1
       (run (repeat (Miss Sample.note1) 6)
            (exec (startGame Sample.envOk)
                  (with_gameStatus IDLE (initial [Sample.note1]))))
       ltac:(vm_compute; discriminate) eq_refl)))).
Defined.

Lemma resetNote_idempotent (n : NoteData.t) : resetNote (resetNote n) = resetNote n.
Proof. reflexivity. Qed.

Lemma step_chart (a : Action) (s : State) :
  DEMO_CHART (step a s) = DEMO_CHART s \/
  DEMO_CHART (step a s) = map resetNote (DEMO_CHART s).
Proof.
  destruct a as [r | env | n g | n | | |]; cbn [step].
  - left. apply cameraEffect_counters.
  - destruct (startGame_cases env s) as [E | (_ & _ & _ & _ & _ & Hc & _)].
    + left. rewrite E. reflexivity.
    + right. exact Hc.
  - left. cbn [onEvent].
    destruct (handleNoteHit_fields (multiplier s) n g s) as (_ & _ & _ & _ & _ & _ & Hc).
    exact Hc.
  - left. unfold onEvent, exec, handleNoteMiss, setCombo, setMultiplier, setHealth,
      setTimeout, bind, ret. cbn.
    destruct (health s - 15 <=? 0); reflexivity.
  - left. apply endGame_counters.
  - left. apply runTimer_counters.
  - left. reflexivity.
Qed.

(** X9: the handlers of the App component never edit the chart except by
    the reset of [startGame]: after any run of handlers the chart is the
    one given at the start or that chart with [hit] and [missed] of every
    note set to false; ids, times, lanes, layers, hands, cut directions
    and hit times are never written. *)
Theorem handlers_only_reset_the_chart :
  forall (chart : list NoteData.t) (acts : list Action),
    let s := runActions acts (initial chart) in
    (DEMO_CHART s = chart \/ DEMO_CHART s = map resetNote chart) /\
    Forall2 (fun n n' => sameSchedule n n' /\
                         NoteData.hitTime n' = NoteData.hitTime n)
            chart (DEMO_CHART s).
Proof.
  intros chart acts s.
  assert (H : DEMO_CHART s = chart \/ DEMO_CHART s = map resetNote chart).
  { unfold s. induction acts as [| a acts IH] using rev_ind.
    - left. reflexivity.
    - rewrite runActions_snoc.
      destruct (step_chart a (runActions acts (initial chart))) as [E | E];
        rewrite E; [ exact IH | ].
      right. destruct IH as [IH | IH]; rewrite IH; [ reflexivity | ].
      rewrite List.map_map. apply List.map_ext. intros n. reflexivity. }
  split; [ exact H | ].
  destruct H as [H | H]; rewrite H; clear.
  - induction chart as [| n l IH]; constructor; [ | exact IH ].
    unfold sameSchedule. repeat split.
  - induction chart as [| n l IH]; cbn [map]; constructor; [ | exact IH ].
    unfold sameSchedule. repeat split.
Qed.

End AppExtra.

(** * The scoring state machine over batched frames *)

Module BatchProps.
Import App Spec Machine Batch AppProps AppExtra.

Local Open Scope Z_scope.

Lemma reduce_app (q1 q2 : list Arg) (v : Z) :
  reduce (q1 ++ q2) v =
    (fst (reduce q2 (fst (reduce q1 v))),
     snd (reduce q1 v) ++ snd (reduce q2 (fst (reduce q1 v)))).
Proof.
  revert v. induction q1 as [| a q1 IH]; intros v; cbn [app reduce].
  - cbn. destruct (reduce q2 v). reflexivity.
  - destruct a as [w | f].
    + apply IH.
    + destruct (f v) as [w calls]. rewrite IH.
      destruct (reduce q1 w) as [r1 c1]. cbn [fst snd].
      destruct (reduce q2 r1) as [r2 c2]. cbn [fst snd].
      rewrite app_assoc. reflexivity.
Qed.

Lemma last_nonempty (w : Z) (l : list Z) (d d' : Z) :
  List.last (w :: l) d = List.last (w :: l) d'.
Proof.
  revert w. induction l as [| z l IH]; intros w; [ reflexivity | ].
  change (List.last (z :: l) d = List.last (z :: l) d'). apply IH.
Qed.

Lemma reduce_values (l : list Z) (v : Z) :
  reduce (map Value l) v = (List.last l v, []).
Proof.
  revert v. induction l as [| w l IH]; intros v; [ reflexivity | ].
  cbn [map reduce]. rewrite IH. f_equal.
  destruct l as [| z l]; [ reflexivity | ].
  change (List.last (w :: z :: l) v) with (List.last (z :: l) v).
  apply last_nonempty.
Qed.

(** The queue of the score: every hit adds its base points times the
    captured multiplier. *)
Lemma reduce_score (m : Z) (evs : list Event) (v : Z) :
  reduce (scoreQueue (flat_map (dispatch m) evs)) v = (v + hitPoints evs * m, []).
Proof.
  revert v. induction evs as [| e evs IH]; intros v.
  - cbn. f_equal. lia.
  - destruct e as [n g | n]; cbn [flat_map dispatch].
    + unfold scoreQueue in *. rewrite flat_map_app. cbn [handleNoteHit flat_map app].
      cbn [reduce]. rewrite IH. cbn [app].
      change (hitPoints (Hit n g :: evs)) with (basePoints g + hitPoints evs).
      f_equal. unfold basePoints. destruct g; lia.
    + unfold scoreQueue in *. rewrite flat_map_app. cbn [handleNoteMiss flat_map app].
      rewrite IH. reflexivity.
Qed.

(** The queue of the combo: the value is the streak, and the updaters of
    the hits call [setMultiplier] with the tiers of the combos they
    reach. *)
Lemma reduce_combo (m : Z) (evs : list Event) (c : Z) :
  fst (reduce (comboQueue (flat_map (dispatch m) evs)) c) = streak c evs /\
  multiplierCalls (snd (reduce (comboQueue (flat_map (dispatch m) evs)) c))
    = map Value (hitTiers c evs) /\
  timeoutCalls (snd (reduce (comboQueue (flat_map (dispatch m) evs)) c)) = [].
Proof.
  revert c. induction evs as [| e evs IH]; intros c.
  - cbn. repeat split.
  - destruct e as [n g | n]; cbn [flat_map dispatch];
      unfold comboQueue in *; rewrite flat_map_app.
    + cbn [handleNoteHit flat_map app reduce streak hitTiers map].
      destruct (IH (c + 1)) as (I1 & I2 & I3).
      destruct (reduce _ (c + 1)) as [r calls]. cbn [fst snd] in *.
      split; [ exact I1 | ].
      unfold multiplierCalls, timeoutCalls in *.
      unfold tier. rewrite !Z.gtb_ltb.
      destruct (30 <? c + 1); [ cbn [app flat_map]; rewrite I2, I3; split; reflexivity | ].
      destruct (20 <? c + 1); [ cbn [app flat_map]; rewrite I2, I3; split; reflexivity | ].
      destruct (10 <? c + 1); cbn [app flat_map]; rewrite I2, I3; split; reflexivity.
    + cbn [handleNoteMiss flat_map app reduce streak hitTiers]. apply IH.
Qed.

Lemma multiplierQueue_frame (m : Z) (evs : list Event) :
  multiplierQueue (flat_map (dispatch m) evs)
  = map Value (map (fun _ => 1) (List.filter isMiss evs)).
Proof.
  induction evs as [| e evs IH]; [ reflexivity | ].
  destruct e as [n g | n]; cbn [flat_map dispatch List.filter isMiss];
    unfold multiplierQueue in *; rewrite flat_map_app; rewrite IH; reflexivity.
Qed.

(** The queue of the health gives what the events give one by one. *)
Lemma reduce_health (m : Z) (evs : list Event) (s : State) :
  fst (reduce (healthQueue (flat_map (dispatch m) evs)) (health s))
    = health (run evs s) /\
  timers s ++ timeoutCalls (snd (reduce (healthQueue (flat_map (dispatch m) evs)) (health s)))
    = timers (run evs s) /\
  multiplierCalls (snd (reduce (healthQueue (flat_map (dispatch m) evs)) (health s))) = [].
Proof.
  revert s. induction evs as [| e evs IH]; intros s.
  - cbn. rewrite app_nil_r. repeat split.
  - cbn [run fold_left]. fold (run evs (onEvent e s)).
    destruct e as [n g | n]; cbn [flat_map dispatch];
      unfold healthQueue in *; rewrite flat_map_app.
    + cbn [handleNoteHit flat_map app reduce onEvent].
      destruct (handleNoteHit_fields (multiplier s) n g s) as (_ & _ & _ & Eh & _ & Et & _).
      destruct (IH (exec (App.handleNoteHit (multiplier s) n g) s)) as (I1 & I2 & I3).
      rewrite Eh in I1, I2, I3. rewrite Et in I2.
      destruct (reduce _ (Z.min 100 (health s + 2))) as [r calls]. cbn [fst snd app] in *.
      repeat split; assumption.
    + cbn [handleNoteMiss flat_map app reduce onEvent].
      destruct (handleNoteMiss_fields n s) as (_ & _ & Eh & _ & _ & Et).
      destruct (IH (exec (App.handleNoteMiss n) s)) as (I1 & I2 & I3).
      rewrite Eh in I1, I2, I3. rewrite Et in I2.
      destruct (Z.leb_spec (health s - 15) 0) as [Hle | Hgt].
      * replace (Z.max 0 (health s - 15)) with 0 in * by lia.
        destruct (reduce _ 0) as [r calls]. cbn [fst snd app timeoutCalls multiplierCalls flat_map] in *.
        rewrite <- app_assoc in I2. cbn [app] in I2. repeat split; assumption.
      * replace (Z.max 0 (health s - 15)) with (health s - 15) in * by lia.
        destruct (reduce _ (health s - 15)) as [r calls]. cbn [fst snd app] in *.
        repeat split; assumption.
Qed.

(** The render of a frame, field by field. *)
Lemma frame_fields (evs : list Event) (s : State) :
  let s' := frame evs s in
  score s' = score s + hitPoints evs * multiplier s /\
  combo s' = streak (combo s) evs /\
  multiplier s' = List.last (map (fun _ => 1) (List.filter isMiss evs)
                        ++ hitTiers (combo s) evs) (multiplier s) /\
  health s' = health (run evs s) /\
  timers s' = timers (run evs s) /\
  gameStatus s' = gameStatus s /\
  DEMO_CHART s' = DEMO_CHART s /\
  audioPaused s' = audioPaused s /\ alerts s' = alerts s.
Proof.
  cbv zeta. unfold frame, render.
  rewrite (reduce_score (multiplier s) evs (score s)).
  destruct (reduce_combo (multiplier s) evs (combo s)) as (C1 & C2 & C3).
  destruct (reduce (comboQueue _) (combo s)) as [c' calls2]. cbn [fst snd] in C1, C2, C3.
  cbn [app]. rewrite C2, multiplierQueue_frame, <- map_app, reduce_values.
  destruct (reduce_health (multiplier s) evs s) as (H1 & H2 & H3).
  destruct (reduce (healthQueue _) (health s)) as [h' calls4]. cbn [fst snd] in H1, H2, H3.
  cbn [app]. rewrite H3. cbn [reduce].
  cbn [score combo multiplier health timers gameStatus DEMO_CHART audioPaused alerts].
  unfold timeoutCalls in *. rewrite flat_map_app, C3. cbn [app].
  rewrite app_nil_r. rewrite H2.
  repeat split; assumption.
Qed.

(** A frame that holds one event is that event handled alone. *)
Lemma frame_of_one_event (e : Event) (s : State) : frame [e] s = onEvent e s.
Proof.
  destruct s as [g sc co mu he ch atime apaused ti al].
  destruct e as [n gc | n]; unfold frame, render, onEvent, exec;
    cbn [flat_map dispatch app handleNoteHit handleNoteMiss
         scoreQueue comboQueue multiplierQueue healthQueue reduce
         score combo multiplier health gameStatus DEMO_CHART timers alerts
         audioCurrentTime audioPaused].
  - unfold App.handleNoteHit, setCombo, setScore, setHealth, setMultiplier, bind, ret.
    cbn [score combo multiplier health gameStatus DEMO_CHART timers alerts
         audioCurrentTime audioPaused with_combo with_score with_health
         with_multiplier snd fst].
    destruct (co + 1 >? 30); [ cbn; rewrite app_nil_r; reflexivity | ].
    destruct (co + 1 >? 20); [ cbn; rewrite app_nil_r; reflexivity | ].
    destruct (co + 1 >? 10); cbn; rewrite app_nil_r; reflexivity.
  - unfold App.handleNoteMiss, setCombo, setHealth, setMultiplier, setTimeout, bind, ret.
    cbn [score combo multiplier health gameStatus DEMO_CHART timers alerts
         audioCurrentTime audioPaused with_combo with_score with_health
         with_multiplier with_timers snd fst].
    destruct (he - 15 <=? 0); cbn; [ reflexivity | rewrite app_nil_r; reflexivity ].
Qed.

Lemma hitPoints_app (a b : list Event) :
  hitPoints (a ++ b) = hitPoints a + hitPoints b.
Proof.
  induction a as [| e a IH]; [ reflexivity | ].
  destruct e as [n g | n].
  - change (hitPoints ((Hit n g :: a) ++ b)) with (basePoints g + hitPoints (a ++ b)).
    change (hitPoints (Hit n g :: a)) with (basePoints g + hitPoints a). lia.
  - exact IH.
Qed.

Lemma hitPoints_bounds (evs : list Event) :
  100 * Z.of_nat (length (List.filter isHit evs)) <= hitPoints evs
  <= 150 * Z.of_nat (length (List.filter isHit evs)).
Proof.
  induction evs as [| e evs IH]; [ cbn; lia | ].
  destruct e as [n g | n]; cbn [List.filter isHit].
  - change (hitPoints (Hit n g :: evs)) with (basePoints g + hitPoints evs).
    cbn [length]. unfold basePoints. destruct g; lia.
  - exact IH.
Qed.

Lemma streak_app (a b : list Event) (c : Z) :
  streak c (a ++ b) = streak (streak c a) b.
Proof.
  revert c. induction a as [| e a IH]; intros c; [ reflexivity | ].
  destruct e; cbn [app streak]; apply IH.
Qed.

Lemma streak_nonneg (evs : list Event) (c : Z) : 0 <= c -> 0 <= streak c evs.
Proof.
  revert c. induction evs as [| e evs IH]; intros c Hc; [ exact Hc | ].
  destruct e; cbn [streak]; apply IH; lia.
Qed.

Lemma hitTiers_app (a b : list Event) (c : Z) :
  hitTiers c (a ++ b) = hitTiers c a ++ hitTiers (streak c a) b.
Proof.
  revert c. induction a as [| e a IH]; intros c; [ reflexivity | ].
  destruct e; cbn [app hitTiers streak]; rewrite IH; reflexivity.
Qed.

Lemma misses_only (ms : list Event) (c : Z) :
  forallb isMiss ms = true ->
  hitTiers c ms = [] /\ List.filter isMiss ms = ms /\
  (ms <> [] -> streak c ms = 0) /\ hitPoints ms = 0.
Proof.
  revert c. induction ms as [| e ms IH]; intros c H.
  - repeat split. intros Hne. contradiction.
  - destruct e as [n g | n]; [ discriminate | ]. cbn [forallb isMiss andb] in H.
    destruct (IH 0 H) as (I1 & I2 & I3 & I4).
    cbn [hitTiers List.filter isMiss streak]. rewrite I2.
    split; [ exact I1 | ]. split; [ reflexivity | ]. split; [ | exact I4 ].
    intros _. destruct ms as [| e' ms']; [ reflexivity | apply I3; discriminate ].
Qed.

Lemma last_cons_default (w : Z) (l : list Z) (d : Z) :
  List.last (w :: l) d = List.last l w.
Proof.
  destruct l as [| z l]; [ reflexivity | ].
  change (List.last (w :: z :: l) d) with (List.last (z :: l) d).
  apply last_nonempty.
Qed.

Lemma hits_only (hs : list Event) (c : Z) :
  forallb isHit hs = true ->
  List.filter isMiss hs = [] /\
  List.last (hitTiers c hs) (tier c) = tier (streak c hs).
Proof.
  revert c. induction hs as [| e hs IH]; intros c H.
  - split; reflexivity.
  - destruct e as [n g | n]; [ | discriminate ]. cbn [forallb isHit andb] in H.
    destruct (IH (c + 1) H) as (I1 & I2).
    cbn [List.filter isMiss hitTiers streak]. split; [ exact I1 | ].
    rewrite last_cons_default. exact I2.
Qed.

(** After a frame of misses followed by hits the multiplier is the tier
    of the combo, if it was before. *)
Lemma clean_frame_tier (evs : list Event) (c m : Z) :
  m = tier c ->
  missesThenHits evs = true ->
  List.last (map (fun _ => 1) (List.filter isMiss evs) ++ hitTiers c evs) m
  = tier (streak c evs).
Proof.
  revert c m. induction evs as [| e evs IH]; intros c m Hm Hclean.
  - exact Hm.
  - destruct e as [n g | n]; cbn [missesThenHits] in Hclean.
    + destruct (hits_only evs (c + 1) Hclean) as (Hf & Hl).
      cbn [List.filter isMiss hitTiers streak]. rewrite Hf. cbn [map app].
      rewrite last_cons_default. exact Hl.
    + cbn [List.filter isMiss hitTiers streak map app].
      rewrite last_cons_default. apply IH; [ reflexivity | exact Hclean ].
Qed.

Lemma last_in (P : Z -> Prop) (l : list Z) (d : Z) :
  List.Forall P l -> P d -> P (List.last l d).
Proof.
  intros Hl Hd. revert d Hd. induction Hl as [| w l Hw _ IH]; intros d Hd.
  - exact Hd.
  - rewrite last_cons_default. apply IH, Hw.
Qed.

Lemma hitTiers_values (evs : list Event) (c : Z) :
  List.Forall (fun m => In m [1; 2; 4; 8]) (hitTiers c evs).
Proof.
  revert c. induction evs as [| e evs IH]; intros c; [ constructor | ].
  destruct e as [n g | n]; cbn [hitTiers]; [ | apply IH ].
  constructor; [ | apply IH ].
  cbn [In]. destruct (tier_values (c + 1)) as [H | [H | [H | H]]]; rewrite H; tauto.
Qed.

Lemma frame_ranged (evs : list Event) (s : State) : ranged s -> ranged (frame evs s).
Proof.
  intros (Hh & Hc & Hs & Hm).
  destruct (frame_fields evs s) as (Es & Ec & Em & Eh & _). cbv zeta in *.
  unfold ranged. rewrite Es, Ec, Em, Eh.
  split; [ apply (run_healthy evs s Hh) | ].
  split; [ apply streak_nonneg, Hc | ].
  split.
  - pose proof (hitPoints_bounds evs) as Hb.
    assert (1 <= multiplier s) by (cbn [In] in Hm; lia). nia.
  - apply last_in; [ | exact Hm ].
    apply Forall_app. split; [ | apply hitTiers_values ].
    clear. induction (List.filter isMiss evs) as [| e l IH]; cbn [map]; constructor;
      [ cbn; tauto | exact IH ].
Qed.

Lemma frame_coherent (evs : list Event) (s : State) :
  missesThenHits evs = true -> coherent s -> coherent (frame evs s).
Proof.
  intros Hclean Hs.
  destruct (frame_fields evs s) as (_ & Ec & Em & _). cbv zeta in *.
  unfold coherent in *. rewrite Ec, Em. apply clean_frame_tier; assumption.
Qed.

Lemma action_ranged (a : Action) (s : State) : ranged s -> ranged (Machine.step a s).
Proof.
  intros Hs. destruct a as [r | env | n g | n | | |]; cbn [Machine.step].
  - destruct (cameraEffect_counters r s) as (E1 & E2 & E3 & E4 & _).
    unfold ranged. rewrite E1, E2, E3, E4. exact Hs.
  - destruct (startGame_cases env s) as [E | (_ & H1 & H2 & H3 & H4 & _)].
    + rewrite E. exact Hs.
    + unfold ranged. rewrite H1, H2, H3, H4. cbn. intuition lia.
  - rewrite <- frame_of_one_event. apply frame_ranged, Hs.
  - rewrite <- frame_of_one_event. apply frame_ranged, Hs.
  - exact Hs.
  - destruct (runTimer_counters s) as (E1 & E2 & E3 & E4 & _).
    unfold ranged. rewrite E1, E2, E3, E4. exact Hs.
  - exact Hs.
Qed.

Lemma action_coherent (a : Action) (s : State) :
  coherent s -> coherent (Machine.step a s).
Proof.
  intros Hs. destruct a as [r | env | n g | n | | |]; cbn [Machine.step].
  - destruct (cameraEffect_counters r s) as (_ & E2 & E3 & _).
    unfold coherent. rewrite E2, E3. exact Hs.
  - destruct (startGame_cases env s) as [E | (_ & _ & H2 & H3 & _)].
    + rewrite E. exact Hs.
    + unfold coherent. rewrite H2, H3. reflexivity.
  - apply onEvent_coherent.
  - apply onEvent_coherent.
  - exact Hs.
  - destruct (runTimer_counters s) as (_ & E2 & E3 & _).
    unfold coherent. rewrite E2, E3. exact Hs.
  - exact Hs.
Qed.

Lemma steps_snoc (sts : list Step) (st : Step) (s : State) :
  steps (sts ++ [st]) s = step st (steps sts s).
Proof. unfold steps. rewrite fold_left_app. reflexivity. Qed.

Lemma steps_ranged (sts : list Step) (s : State) : ranged s -> ranged (steps sts s).
Proof.
  intros Hs. induction sts as [| st sts IH] using rev_ind; [ exact Hs | ].
  rewrite steps_snoc. destruct st as [evs | a]; cbn [step].
  - apply frame_ranged, IH.
  - apply action_ranged, IH.
Qed.

Lemma steps_coherent (sts : list Step) (s : State) :
  forallb cleanStep sts = true -> coherent s -> coherent (steps sts s).
Proof.
  intros Hclean Hs. induction sts as [| st sts IH] using rev_ind; [ exact Hs | ].
  rewrite forallb_app in Hclean. apply andb_prop in Hclean as [Hsts Hst].
  cbn [forallb] in Hst. rewrite andb_true_r in Hst.
  rewrite steps_snoc. destruct st as [evs | a]; cbn [step cleanStep] in *.
  - apply frame_coherent; [ exact Hst | apply IH, Hsts ].
  - apply action_coherent, IH, Hsts.
Qed.

Lemma initial_ranged (chart : list NoteData.t) : ranged (initial chart).
Proof. unfold ranged. cbn. intuition lia. Qed.

(** A frame of [k] correct hits. *)
Lemma goodHits_frame (k : nat) (s : State) :
  let s' := frame (Sample.goodHits k) s in
  score s' = score s + 150 * Z.of_nat k * multiplier s /\
  combo s' = combo s + Z.of_nat k /\
  multiplier s' = (if (0 <? Z.of_nat k) then tier (combo s + Z.of_nat k)
                   else multiplier s).
Proof.
  cbv zeta. destruct (frame_fields (Sample.goodHits k) s) as (Es & Ec & Em & _).
  cbv zeta in *. rewrite Es, Ec, Em. clear Es Ec Em.
  assert (H : forall c m,
            hitPoints (Sample.goodHits k) = 150 * Z.of_nat k /\
            streak c (Sample.goodHits k) = c + Z.of_nat k /\
            List.filter isMiss (Sample.goodHits k) = [] /\
            List.last (hitTiers c (Sample.goodHits k)) m
            = (if 0 <? Z.of_nat k then tier (c + Z.of_nat k) else m)).
  { unfold Sample.goodHits. induction k as [| k IH]; intros c m.
    - cbn. repeat split. lia.
    - destruct (IH (c + 1) (tier (c + 1))) as (I1 & I2 & I3 & I4).
      cbn [repeat List.filter isMiss streak hitTiers].
      change (hitPoints (Hit Sample.note1 true :: repeat (Hit Sample.note1 true) k))
        with (basePoints true + hitPoints (repeat (Hit Sample.note1 true) k)).
      rewrite I1, I2, I3, last_cons_default, I4. unfold basePoints.
      repeat split; try lia.
      destruct (Z.ltb_spec 0 (Z.of_nat k)), (Z.ltb_spec 0 (Z.of_nat (S k))); try lia.
      + f_equal. lia.
      + f_equal. lia. }
  destruct (H (combo s) (multiplier s)) as (H1 & H2 & H3 & H4).
  rewrite H1, H2, H3. cbn [map app]. rewrite H4. repeat split.
Qed.

(** Correct hits from a fresh combo, cut into frames in any way, up to
    eleven of them: each is paid 150. *)
Lemma goodHits_frames (ks : list nat) (s : State) :
  coherent s -> 0 <= combo s ->
  combo s + Z.of_nat (list_sum ks) <= 11 ->
  let s' := frames (map Sample.goodHits ks) s in
  combo s' = combo s + Z.of_nat (list_sum ks) /\
  coherent s' /\
  score s' = score s + 150 * Z.of_nat (list_sum ks).
Proof.
  revert s. induction ks as [| k ks IH]; intros s Hco Hc Hsum; cbv zeta.
  - cbn. repeat split; [ lia | exact Hco | lia ].
  - cbn [map frames fold_left] in *.
    change (list_sum (k :: ks)) with (k + list_sum ks)%nat in *.
    fold (frames (map Sample.goodHits ks) (frame (Sample.goodHits k) s)).
    destruct (goodHits_frame k s) as (Es & Ec & Em). cbv zeta in *.
    assert (Hco' : coherent (frame (Sample.goodHits k) s)).
    { unfold coherent in *. rewrite Em, Ec.
      destruct (Z.ltb_spec 0 (Z.of_nat k)); [ reflexivity | ].
      rewrite Hco. f_equal. lia. }
    destruct (IH (frame (Sample.goodHits k) s) Hco') as (I1 & I2 & I3).
    + rewrite Ec. lia.
    + rewrite Ec. lia.
    + rewrite I1, I3, Ec, Es. split; [ lia | ]. split; [ exact I2 | ].
      unfold coherent in Hco. rewrite Hco.
      destruct (Z.eq_dec (Z.of_nat k) 0) as [E | E]; [ rewrite E; lia | ].
      assert (Ht : tier (combo s) = 1).
      { unfold tier.
        destruct (Z.ltb_spec 30 (combo s)), (Z.ltb_spec 20 (combo s)),
          (Z.ltb_spec 10 (combo s)); lia. }
      rewrite Ht. lia.
Qed.

(** C1 (as amended): a hit is paid its base points (100, plus 50 for a
    correct cut) times the multiplier of the last render, the one its
    callback was built with, wherever it stands in its frame; the tier of
    the combo it reaches is only stored for later frames.  After 10 correct
    hits, cut into frames in any way, the 11th hit adds (100+50)*1; the
    12th adds (100+50)*2 when a render separates it from the 11th and
    (100+50)*1 when both are in one frame; eleven correct hits give 1650
    however they are cut into frames. *)
Theorem C1_points_use_multiplier_of_last_render :
  forall (chart : list NoteData.t) (s : State) (before after : list Event)
         (n : NoteData.t) (g : bool),
    score (frame (before ++ Hit n g :: after) s)
      = score (frame (before ++ after) s) + basePoints g * multiplier s /\
    (forall ks, list_sum ks = 10%nat ->
       let s10 := frames (map Sample.goodHits ks) (initial chart) in
       let s11 := frame [Hit n true] s10 in
       combo s10 = 10 /\ multiplier s10 = 1 /\
       score s11 = score s10 + (100 + 50) * 1 /\
       multiplier s11 = 2 /\
       score (frame [Hit n true] s11) = score s11 + (100 + 50) * 2 /\
       score (frame [Hit n true; Hit n true] s10)
         = score s10 + (100 + 50) * 1 + (100 + 50) * 1) /\
    (forall ks, list_sum ks = 11%nat ->
       score (frames (map Sample.goodHits ks) (initial chart)) = 11 * (100 + 50)).
Proof.
  intros chart s before after n g. split; [ | split ].
  - destruct (frame_fields (before ++ Hit n g :: after) s) as (E1 & _).
    destruct (frame_fields (before ++ after) s) as (E2 & _). cbv zeta in *.
    rewrite E1, E2, !hitPoints_app.
    change (hitPoints (Hit n g :: after)) with (basePoints g + hitPoints after). lia.
  - intros ks Hsum. cbv zeta.
    destruct (goodHits_frames ks (initial chart) (initial_coherent chart))
      as (Hc & Hco & Hs); [ cbn; lia | rewrite Hsum; cbn; lia | ].
    cbv zeta in *. rewrite Hsum in Hc. cbn [combo initial] in Hc.
    change (0 + Z.of_nat 10) with 10 in Hc.
    unfold coherent in Hco. rewrite Hc in Hco. change (tier 10) with 1 in Hco.
    remember (frames (map Sample.goodHits ks) (initial chart)) as s10 eqn:E10. clear E10.
    destruct (frame_fields [Hit n true] s10) as (A1 & A2 & A3 & _).
    destruct (frame_fields [Hit n true; Hit n true] s10) as (B1 & _).
    cbv zeta in *.
    remember (frame [Hit n true] s10) as s11 eqn:E11. clear E11.
    destruct (frame_fields [Hit n true] s11) as (D1 & _). cbv zeta in *.
    change (hitPoints [Hit n true]) with 150 in A1, D1.
    change (hitPoints [Hit n true; Hit n true]) with 300 in B1.
    rewrite Hc in A2, A3.
    change (List.last (map (fun _ => 1) (List.filter isMiss [Hit n true])
                       ++ hitTiers 10 [Hit n true]) (multiplier s10))
      with 2 in A3.
    rewrite Hco in A1, B1. rewrite A3 in D1.
    split; [ exact Hc | ]. split; [ exact Hco | ]. split; [ lia | ].
    split; [ exact A3 | ]. split; lia.
  - intros ks Hsum.
    destruct (goodHits_frames ks (initial chart) (initial_coherent chart))
      as (_ & _ & Hs); [ cbn; lia | rewrite Hsum; cbn; lia | ].
    cbv zeta in Hs. rewrite Hs, Hsum. reflexivity.
Qed.

(** C1 as stated fails: after 10 correct hits, each followed by a render,
    the 11th hit stores the multiplier 2 but adds 150 points, not
    (100+50)*2; eleven correct hits of one frame give 1650 as well. *)
Lemma C1_eleventh_hit_adds_150 :
  let s10 := frames (repeat [Hit Sample.note1 true] 10) (initial []) in
  let s11 := frame [Hit Sample.note1 true] s10 in
  combo s11 = 11 /\ multiplier s11 = 2 /\
  multiplierAfterHit Sample.note1 (combo s11) = 2 /\
  score s11 = score s10 + 150 /\
  score s11 <> score s10 + (100 + 50) * multiplierAfterHit Sample.note1 (combo s11) /\
  score s11 <> score s10 + (100 + 50) * 2 /\
  score (frame (Sample.goodHits 11) (initial [])) = 1650.
Proof. vm_compute. repeat split; discriminate. Qed.

(** C4, the render evaluated where a miss shares its frame with a hit.  A
    miss that is alone in its frame leaves combo 0, multiplier 1, health
    lowered by 15 (0 and a queued [endGame(false)] when that is not above
    0) and the phase as it was.  When a hit of the same frame comes first,
    the [setMultiplier] of its updater runs at the render, behind the
    [setMultiplier(1)] of the miss: the combo is 0 and the multiplier is
    the tier of the combo the hit reached, 2 from a combo of 10. *)
Theorem C4_miss_in_the_frame_of_a_hit_keeps_its_multiplier :
  forall (s : State) (n n' : NoteData.t) (g : bool),
    let alone := frame [Miss n] s in
    let afterHit := frame [Hit n' g; Miss n] s in
    let beforeHit := frame [Miss n; Hit n' g] s in
    let s10 := frames (repeat [Hit Sample.note1 true] 10) (initial []) in
    (combo alone = 0 /\ multiplier alone = 1 /\
     health alone = Z.max 0 (health s - 15) /\
     gameStatus alone = gameStatus s /\
     timers alone = (if health s - 15 <=? 0 then timers s ++ [EndGame false]
                     else timers s)) /\
    (combo afterHit = 0 /\ multiplier afterHit = tier (combo s + 1) /\
     gameStatus afterHit = gameStatus s) /\
    (combo beforeHit = 1 /\ multiplier beforeHit = 1) /\
    (combo s10 = 10 /\ multiplier s10 = 1 /\
     combo (frame [Hit n' g; Miss n] s10) = 0 /\
     multiplier (frame [Hit n' g; Miss n] s10) = 2).
Proof.
  intros s n n' g. cbv zeta.
  split; [ | split; [ | split ] ].
  - rewrite frame_of_one_event. cbn [onEvent].
    destruct (handleNoteMiss_fields n s) as (E1 & E2 & E3 & E4 & _ & E6).
    repeat split; assumption.
  - destruct (frame_fields [Hit n' g; Miss n] s) as (_ & Ec & Em & _ & _ & Eg & _).
    cbv zeta in *. rewrite Ec, Em. repeat split. exact Eg.
  - destruct (frame_fields [Miss n; Hit n' g] s) as (_ & Ec & Em & _).
    cbv zeta in *. rewrite Ec, Em. repeat split.
  - destruct (frame_fields [Hit n' g; Miss n]
                (frames (repeat [Hit Sample.note1 true] 10) (initial [])))
      as (_ & Ec & Em & _).
    cbv zeta in *. rewrite Ec, Em. repeat split.
Qed.

Lemma frames_snoc (fs : list (list Event)) (evs : list Event) (s : State) :
  frames (fs ++ [evs]) s = frame evs (frames fs s).
Proof. unfold frames. rewrite fold_left_app. reflexivity. Qed.

Lemma run_app (a b : list Event) (s : State) : run (a ++ b) s = run b (run a s).
Proof. unfold run. apply fold_left_app. Qed.

(** Cutting the events into frames changes neither the combo, the health,
    the timer queue, the phase nor the chart: for these the frames give
    what the events give one render at a time. *)
Lemma frames_agree_with_run (fs : list (list Event)) (s : State) :
  combo (frames fs s) = combo (run (concat fs) s) /\
  health (frames fs s) = health (run (concat fs) s) /\
  timers (frames fs s) = timers (run (concat fs) s) /\
  gameStatus (frames fs s) = gameStatus (run (concat fs) s) /\
  DEMO_CHART (frames fs s) = DEMO_CHART (run (concat fs) s).
Proof.
  assert (Hrun : forall evs s s',
            combo s = combo s' -> health s = health s' -> timers s = timers s' ->
            gameStatus s = gameStatus s' -> DEMO_CHART s = DEMO_CHART s' ->
            combo (run evs s) = combo (run evs s') /\
            health (run evs s) = health (run evs s') /\
            timers (run evs s) = timers (run evs s') /\
            gameStatus (run evs s) = gameStatus (run evs s') /\
            DEMO_CHART (run evs s) = DEMO_CHART (run evs s')).
  { clear. induction evs as [| e evs IH]; intros s s' H1 H2 H3 H4 H5.
    - repeat split; assumption.
    - cbn [run fold_left]. fold (run evs (onEvent e s)). fold (run evs (onEvent e s')).
      destruct e as [n g | n]; cbn [onEvent].
      + destruct (handleNoteHit_fields (multiplier s) n g s) as (A1 & _ & _ & A4 & A5 & A6 & A7).
        destruct (handleNoteHit_fields (multiplier s') n g s') as (B1 & _ & _ & B4 & B5 & B6 & B7).
        apply IH; congruence.
      + destruct (handleNoteMiss_fields n s) as (A1 & _ & A3 & A4 & _ & A6).
        destruct (handleNoteMiss_fields n s') as (B1 & _ & B3 & B4 & _ & B6).
        assert (A7 : DEMO_CHART (exec (App.handleNoteMiss n) s) = DEMO_CHART s).
        { unfold exec, App.handleNoteMiss, setCombo, setMultiplier, setHealth,
            setTimeout, bind, ret. cbn. destruct (health s - 15 <=? 0); reflexivity. }
        assert (B7 : DEMO_CHART (exec (App.handleNoteMiss n) s') = DEMO_CHART s').
        { unfold exec, App.handleNoteMiss, setCombo, setMultiplier, setHealth,
            setTimeout, bind, ret. cbn. destruct (health s' - 15 <=? 0); reflexivity. }
        apply IH; try congruence.
        rewrite A6, B6, H2, H3. reflexivity. }
  induction fs as [| evs fs IH] using rev_ind.
  - repeat split.
  - rewrite frames_snoc, concat_app. cbn [concat]. rewrite app_nil_r, run_app.
    destruct IH as (I1 & I2 & I3 & I4 & I5).
    destruct (frame_fields evs (frames fs s)) as (_ & Ec & _ & Eh & Et & Eg & Ech & _).
    cbv zeta in *.
    destruct (Hrun evs (frames fs s) (run (concat fs) s) I1 I2 I3 I4 I5)
      as (R1 & R2 & R3 & R4 & R5).
    rewrite Eh, Et, R2, R3.
    assert (Ec' : combo (frame evs (frames fs s)) = combo (run evs (frames fs s))).
    { rewrite Ec. clear. generalize (frames fs s). induction evs as [| e evs IH]; intros t.
      - reflexivity.
      - cbn [run fold_left]. fold (run evs (onEvent e t)). rewrite <- IH.
        destruct e as [n g | n]; cbn [onEvent streak].
        + destruct (handleNoteHit_fields (multiplier t) n g t) as (E & _). rewrite E. reflexivity.
        + destruct (handleNoteMiss_fields n t) as (E & _). rewrite E. reflexivity. }
    assert (Eg' : gameStatus (run evs (frames fs s)) = gameStatus (frames fs s)).
    { clear. generalize (frames fs s). induction evs as [| e evs IH]; intros t.
      - reflexivity.
      - cbn [run fold_left]. fold (run evs (onEvent e t)). rewrite IH.
        destruct e as [n g | n]; cbn [onEvent].
        + apply (handleNoteHit_fields (multiplier t) n g t).
        + apply (handleNoteMiss_fields n t). }
    assert (Ech' : DEMO_CHART (run evs (frames fs s)) = DEMO_CHART (frames fs s)).
    { clear. generalize (frames fs s). induction evs as [| e evs IH]; intros t.
      - reflexivity.
      - cbn [run fold_left]. fold (run evs (onEvent e t)). rewrite IH.
        destruct e as [n g | n]; cbn [onEvent].
        + apply (handleNoteHit_fields (multiplier t) n g t).
        + unfold exec, App.handleNoteMiss, setCombo, setMultiplier, setHealth,
            setTimeout, bind, ret. cbn. destruct (health t - 15 <=? 0); reflexivity. }
    rewrite Ec', R1, Eg, <- Eg', R4, Ech, <- Ech', R5. repeat split.
Qed.

(** X1: whatever runs and in whatever order, frames of hits and misses and
    the other handlers (camera effect, start, song end, timers, Play
    Again), health stays in [0,100], combo and score stay non-negative and
    the multiplier is one of 1, 2, 4, 8.  When no frame holds a miss after
    a hit, the multiplier is the tier of the combo. *)
Theorem counters_stay_in_range_under_all_steps :
  forall (chart : list NoteData.t) (sts : list Step),
    let s := steps sts (initial chart) in
    0 <= health s <= 100 /\ 0 <= combo s /\ 0 <= score s /\
    In (multiplier s) [1; 2; 4; 8] /\
    (forallb cleanStep sts = true -> multiplier s = tier (combo s)).
Proof.
  intros chart sts s.
  destruct (steps_ranged sts (initial chart) (initial_ranged chart)) as (Hh & Hc & Hs & Hm).
  fold s in Hh, Hc, Hs, Hm.
  split; [ exact Hh | ]. split; [ exact Hc | ]. split; [ exact Hs | ].
  split; [ exact Hm | ].
  intros Hclean. apply (steps_coherent sts (initial chart) Hclean (initial_coherent chart)).
Qed.

(** X3: however the events are cut into frames, the combo is the number
    of hits since the last miss.  The multiplier left by a frame is the
    tier of the combo reached by its last hit: the tier of the combo when
    the frame ends with a hit, the tier of the combo before the misses
    when misses follow that hit (the combo is then 0), and 1 when the frame
    holds misses only. *)
Theorem combo_counts_hits_since_last_miss :
  forall (fs : list (list Event)) (s : State),
    combo (frames fs s) = streak (combo s) (concat fs) /\
    (forall evs n g,
       multiplier (frame (evs ++ [Hit n g]) s)
       = tier (combo (frame (evs ++ [Hit n g]) s))) /\
    (forall evs n g misses,
       misses <> [] -> forallb isMiss misses = true ->
       combo (frame (evs ++ Hit n g :: misses) s) = 0 /\
       multiplier (frame (evs ++ Hit n g :: misses) s)
       = tier (streak (combo s) evs + 1)) /\
    (forall misses,
       misses <> [] -> forallb isMiss misses = true ->
       combo (frame misses s) = 0 /\ multiplier (frame misses s) = 1).
Proof.
  intros fs s. split; [ | split; [ | split ] ].
  - revert s. induction fs as [| evs fs IH]; intros s; [ reflexivity | ].
    cbn [frames fold_left concat]. fold (frames fs (frame evs s)).
    rewrite IH, streak_app.
    destruct (frame_fields evs s) as (_ & Ec & _). cbv zeta in Ec. rewrite Ec.
    reflexivity.
  - intros evs n g.
    destruct (frame_fields (evs ++ [Hit n g]) s) as (_ & Ec & Em & _).
    cbv zeta in *. rewrite Ec, Em, hitTiers_app, streak_app.
    cbn [hitTiers streak]. rewrite app_assoc. apply last_last.
  - intros evs n g misses Hne Hmiss.
    destruct (frame_fields (evs ++ Hit n g :: misses) s) as (_ & Ec & Em & _).
    cbv zeta in *. rewrite Ec, Em, hitTiers_app, streak_app.
    cbn [hitTiers streak].
    destruct (misses_only misses (streak (combo s) evs + 1) Hmiss) as (M1 & _ & M3 & _).
    rewrite M1, (M3 Hne). split; [ reflexivity | ].
    rewrite app_assoc. apply last_last.
  - intros misses Hne Hmiss.
    destruct (frame_fields misses s) as (_ & Ec & Em & _). cbv zeta in *.
    destruct (misses_only misses (combo s) Hmiss) as (M1 & M2 & M3 & _).
    rewrite Ec, Em, M1, M2, (M3 Hne), app_nil_r. split; [ reflexivity | ].
    destruct misses as [| e ms]; [ contradiction | ].
    cbn [map]. rewrite last_cons_default.
    apply (last_in (fun m => m = 1)); [ | reflexivity ].
    clear. induction ms as [| e' ms IH]; cbn [map]; constructor;
      [ reflexivity | exact IH ].
Qed.

(** X4: in any state reached by frames and handlers, further frames never
    lower the score: they raise it by at least 100 and at most 1200 points
    per hit, however the hits and misses are cut into frames. *)
Theorem score_grows_by_100_to_1200_per_hit :
  forall (chart : list NoteData.t) (before : list Step) (fs : list (list Event)),
    let s := steps before (initial chart) in
    let hits := Z.of_nat (length (List.filter isHit (concat fs))) in
    score s + 100 * hits <= score (frames fs s) <= score s + 1200 * hits.
Proof.
  intros chart before fs s hits. unfold hits.
  assert (Hs : ranged s) by (apply steps_ranged, initial_ranged).
  clearbody s. clear hits. revert s Hs.
  induction fs as [| evs fs IH]; intros s Hs.
  - cbn. lia.
  - cbn [frames fold_left concat]. fold (frames fs (frame evs s)).
    specialize (IH (frame evs s) (frame_ranged evs s Hs)).
    rewrite List.filter_app, length_app, Nat2Z.inj_add.
    destruct (frame_fields evs s) as (Es & _). cbv zeta in Es. rewrite Es in IH.
    pose proof (hitPoints_bounds evs) as Hb.
    destruct Hs as (_ & _ & _ & Hm).
    assert (1 <= multiplier s <= 8) by (cbn [In] in Hm; lia). nia.
Qed.

(** X8: in every state reached by frames and handlers the health bar is
    between 0% and 100% wide, a bonus badge that is shown carries 2, 4 or
    8, and the hand cursor is mounted whenever a button is on screen.
    When no frame holds a miss after a hit, the badge is shown exactly
    when the combo text is highlighted (combo above 10) and carries the
    tier of the combo. *)
Theorem hud_is_consistent :
  forall (chart : list NoteData.t) (sts : list Step),
    let s := steps sts (initial chart) in
    (forall ready, startButtonShown ready s || playAgainShown s = true ->
                   handCursorMounted s = true) /\
    0 <= healthBarWidth s <= 100 /\
    (forall m, bonusBadge s = Some m -> In m [2; 4; 8]) /\
    (forallb cleanStep sts = true ->
     (comboHighlighted s = true <-> bonusBadge s <> None) /\
     (forall m, bonusBadge s = Some m -> m = tier (combo s))).
Proof.
  intros chart sts s.
  split.
  { intros ready. unfold startButtonShown, playAgainShown, handCursorMounted.
    destruct (gameStatus s), ready; cbn; congruence. }
  destruct (steps_ranged sts (initial chart) (initial_ranged chart)) as (Hh & _ & _ & Hm).
  fold s in Hh, Hm.
  split; [ exact Hh | ]. split.
  - unfold bonusBadge. intros m Hb.
    destruct (Z.gtb_spec (multiplier s) 1) as [Hgt | Hle]; [ | discriminate ].
    inversion Hb; subst m. cbn [In] in *. lia.
  - intros Hclean.
    pose proof (steps_coherent sts (initial chart) Hclean (initial_coherent chart)) as Hco.
    fold s in Hco. unfold coherent in Hco.
    unfold comboHighlighted, bonusBadge. rewrite Hco. unfold tier. rewrite Z.gtb_ltb.
    destruct (Z.ltb_spec 30 (combo s)), (Z.ltb_spec 20 (combo s)),
      (Z.ltb_spec 10 (combo s)); try lia; cbn;
      (split; [ split; [ intros; discriminate | intros; try reflexivity; try congruence ]
              | intros m Hb; inversion Hb; reflexivity ]).
Qed.

(** A hit and a miss in one frame at a combo of 10: the HUD shows a combo
    of 0, not highlighted, with the x2 bonus badge. *)
Lemma bonus_badge_without_combo :
  let s10 := frames (repeat [Hit Sample.note1 true] 10) (initial []) in
  let s := frame [Hit Sample.note1 true; Miss Sample.note1] s10 in
  combo s = 0 /\ comboHighlighted s = false /\ bonusBadge s = Some 2.
Proof. vm_compute. repeat split. Qed.

End BatchProps.


(** * Further properties of the dwell selector *)

Module CursorExtra.
Import HandCursor CursorView CursorProps.

Local Open Scope Q_scope.

(** What [hover] does to the document: it clicks nothing or the button
    under the fingertip, and it marks nothing else than that button. *)
Lemma hover_dom (target : option Element) (now after : Q)
      (cur : CursorState) (st : TargetState) (d : Dom) :
  let d' := snd (hover target now after cur st d) in
  (clicks d' = clicks d \/ exists b, target = Some b /\ clicks d' = clicks d ++ [b]) /\
  (forall a, a ∈ hoverClass d' -> a ∈ hoverClass d \/ target = Some a).
Proof.
  assert (Hadd : forall (b a : Element) (X : gset Element),
            a ∈ X ∪ {[ b ]} -> a ∈ X \/ Some b = Some a).
  { intros b a X Ha. apply elem_of_union in Ha as [Ha | Ha]; [ left; exact Ha | ].
    apply elem_of_singleton in Ha. right. congruence. }
  cbv zeta. unfold hover. destruct target as [b |].
  - destruct (negb (sameTarget (lastTarget st) b)).
    + cbn. split; [ left; reflexivity | ]. intros a. apply Hadd.
    + destruct (Qle_bool 1 _); cbn.
      * split; [ right; exists b; split; reflexivity | ]. intros a. apply Hadd.
      * split; [ left; reflexivity | ]. intros a. apply Hadd.
  - destruct (lastTarget st) as [t |]; cbn.
    + split; [ left; reflexivity | ]. intros a Ha.
      apply elem_of_difference in Ha as [Ha _]. left. exact Ha.
    + split; [ left; reflexivity | ]. intros a Ha. left. exact Ha.
Qed.

Lemma hitTest_enabled (f : Frame) (sx sy : Q) (b : Element) :
  hitTest f sx sy = Some b -> disabled f b = false /\ buttonAt f sx sy = Some b.
Proof.
  unfold hitTest. destruct (buttonAt f sx sy) as [b' |]; [ | discriminate ].
  destruct (disabled f b') eqn:E; cbn; [ discriminate | ].
  intros H. inversion H; subst. split; [ exact E | reflexivity ].
Qed.

Lemma iteration_dom (f : Frame) (hands : list Hand) (i : Slot) (w : World) :
  let w' := iteration f hands i w in
  (exists new, clicks (dom w') = clicks (dom w) ++ new /\
               (length new <= 1)%nat /\
               Forall (fun b => disabled f b = false) new) /\
  (forall a, a ∈ hoverClass (dom w') ->
             a ∈ hoverClass (dom w) \/ disabled f a = false).
Proof.
  cbv zeta. unfold iteration. destruct (nth_error hands (index i)) as [h |].
  - unfold handSeen.
    match goal with |- context [hover ?t ?n ?a ?c ?s ?d] =>
      pose proof (hover_dom t n a c s d) as Hd;
      destruct (hover t n a c s d) as [[cur' st'] d'] eqn:Eh end.
    cbv zeta in Hd. cbn [snd] in Hd. cbn [dom].
    destruct Hd as [Hclicks Hmarks]. split.
    + destruct Hclicks as [E | (b & Hb & E)].
      * exists []. rewrite E, app_nil_r. repeat split; [ cbn; lia | constructor ].
      * exists [b]. rewrite E. repeat split; [ cbn; lia | ].
        constructor; [ | constructor ].
        apply hitTest_enabled in Hb. apply Hb.
    + intros a Ha. destruct (Hmarks a Ha) as [H | H]; [ left; exact H | right ].
      apply hitTest_enabled in H. apply H.
  - unfold handLost. destruct (active (get i (cursors w))); cbn [dom].
    + split; [ exists []; rewrite app_nil_r; repeat split; [ cbn; lia | constructor ] | ].
      intros a Ha. left. exact Ha.
    + split; [ exists []; rewrite app_nil_r; repeat split; [ cbn; lia | constructor ] | ].
      intros a Ha. left. exact Ha.
Qed.

(** X10: one run of the loop only appends to the click log, at most two
    clicks (one per loop index), and every button it clicks or newly marks
    as hovered is enabled in that frame: a disabled button is never
    activated and never gets the hover class. *)
Theorem loop_never_touches_disabled_buttons :
  forall (f : Frame) (w : World),
    let w' := updateLoop f w in
    clicks (dom w') = clicks (dom w) ++ clickedIn f w /\
    (length (clickedIn f w) <= 2)%nat /\
    Forall (fun b => disabled f b = false) (clickedIn f w) /\
    (forall a, a ∈ hoverClass (dom w') ->
               a ∈ hoverClass (dom w) \/ disabled f a = false).
Proof.
  intros f w. cbv zeta.
  assert (H : (exists new, clicks (dom (updateLoop f w)) = clicks (dom w) ++ new /\
                           (length new <= 2)%nat /\
                           Forall (fun b => disabled f b = false) new) /\
              (forall a, a ∈ hoverClass (dom (updateLoop f w)) ->
                         a ∈ hoverClass (dom w) \/ disabled f a = false)).
  { unfold updateLoop. destruct (results f) as [hands |].
    - destruct (iteration_dom f hands Slot0 w) as [(n0 & E0 & L0 & F0) M0].
      destruct (iteration_dom f hands Slot1 (iteration f hands Slot0 w))
        as [(n1 & E1 & L1 & F1) M1].
      cbv zeta in *. split.
      + exists (n0 ++ n1). rewrite E1, E0, <- app_assoc.
        repeat split; [ rewrite length_app; lia | ].
        apply Forall_app. split; assumption.
      + intros a Ha. destruct (M1 a Ha) as [H | H]; [ apply M0, H | right; exact H ].
    - split; [ exists []; rewrite app_nil_r; repeat split; [ cbn; lia | constructor ] | ].
      intros a Ha. left. exact Ha. }
  destruct H as [(new & E & L & F) M].
  assert (Enew : clickedIn f w = new).
  { unfold clickedIn. rewrite E. rewrite skipn_app, Nat.sub_diag.
    rewrite skipn_all. reflexivity. }
  rewrite Enew. repeat split; assumption.
Qed.

(** Without a recorded target a frame cannot click. *)
Lemma hover_no_target_no_click (target : option Element) (now after : Q)
      (cur : CursorState) (st : TargetState) (d : Dom) :
  lastTarget st = None ->
  clicks (snd (hover target now after cur st d)) = clicks d /\
  progress (fst (fst (hover target now after cur st d))) = 0.
Proof.
  intros Hlast. unfold hover. rewrite Hlast. destruct target as [b |]; cbn.
  - split; reflexivity.
  - split; reflexivity.
Qed.

Lemma loneHand_results (label : string) (f : Frame) (h : Hand) :
  loneHand label f = Some h ->
  results f = Some [h] /\ categoryName h = label.
Proof.
  unfold loneHand. destruct (results f) as [[| h' [| h'' l]] |]; try discriminate.
  destruct (String.eqb_spec (categoryName h') label) as [E | _]; [ | discriminate ].
  intros H. inversion H; subst. split; reflexivity.
Qed.

Lemma right_frame (f : Frame) (h : Hand) (w : World) :
  loneHand "Right" f = Some h ->
  lastTarget (at1 (internalState w)) = None ->
  let w' := updateLoop f w in
  clicks (dom w') = clicks (dom w) /\
  at0 (cursors w') = at0 (cursors w) /\
  at0 (internalState w') = at0 (internalState w) /\
  active (at1 (cursors w')) = false /\
  hovering (at1 (cursors w')) = false /\
  progress (at1 (cursors w')) = 0 /\
  lastTarget (at1 (internalState w')) = None.
Proof.
  intros Hlone Hlast. apply loneHand_results in Hlone as [Hres Hright].
  cbv zeta. unfold updateLoop. rewrite Hres.
  unfold iteration. cbn [nth_error index].
  unfold handSeen. rewrite Hright, String.eqb_refl. cbn [get].
  match goal with |- context [hover ?t ?n ?a ?c ?s ?d] =>
    pose proof (hover_no_target_no_click t n a c s d Hlast) as [Hc Hp];
    pose proof (hover_active t n a c s d) as Ha;
    destruct (hover t n a c s d) as [[cur' st'] d'] end.
  cbn [fst snd active] in Hc, Hp, Ha.
  unfold handLost. cbn [set get cursors at1]. rewrite Ha.
  cbn. repeat split; assumption.
Qed.

(** X11: a hand labelled 'Right' that is alone in the results can never
    activate anything: over any number of such frames, starting without a
    recorded target, the click log does not grow, the cursor of that hand
    ends every frame hidden, not hovering, with progress 0 and no target,
    and the other cursor is left exactly as it was. *)
Theorem lone_right_hand_never_clicks :
  forall (fs : list Frame) (w : World),
    Forall (fun f => loneHand "Right" f <> None) fs ->
    lastTarget (at1 (internalState w)) = None ->
    let w' := runFrames fs w in
    clicks (dom w') = clicks (dom w) /\
    at0 (cursors w') = at0 (cursors w) /\
    at0 (internalState w') = at0 (internalState w) /\
    lastTarget (at1 (internalState w')) = None /\
    (fs <> [] ->
     active (at1 (cursors w')) = false /\ hovering (at1 (cursors w')) = false /\
     progress (at1 (cursors w')) = 0).
Proof.
  intros fs w Hall. cbv zeta. revert w.
  induction Hall as [| f fs Hf _ IH]; intros w Hlast.
  - cbn. repeat split; try assumption; contradiction.
  - destruct (loneHand "Right" f) as [h |] eqn:Elone; [ | contradiction ].
    destruct (right_frame f h w Elone Hlast) as (Hc & H0 & H0' & Ha & Hh & Hp & Hl).
    cbn [runFrames fold_left]. fold (runFrames fs (updateLoop f w)).
    destruct (IH (updateLoop f w) Hl) as (Ic & I0 & I0' & Il & Irest).
    rewrite Ic, I0, I0', Hc, H0, H0'.
    repeat split; try assumption.
    + destruct fs as [| f' fs']; [ exact Ha | apply Irest; discriminate ].
    + destruct fs as [| f' fs']; [ exact Hh | apply Irest; discriminate ].
    + destruct fs as [| f' fs']; [ exact Hp | apply Irest; discriminate ].
Qed.

Lemma lone_right_hand_never_clicks_witness :
  let fs := [Sample.layout (Some [Sample.rightOnButton 0]);
             Sample.layout (Some [Sample.rightOnButton 600]);
             Sample.layout (Some [Sample.rightOnButton 1200]);
             Sample.layout (Some [Sample.rightOnButton 5000])] in
  clicks (dom (runFrames fs initial)) = [] /\
  active (at1 (cursors (runFrames fs initial))) = false.
Proof.
  destruct (lone_right_hand_never_clicks
              [Sample.layout (Some [Sample.rightOnButton 0]);
               Sample.layout (Some [Sample.rightOnButton 600]);
               Sample.layout (Some [Sample.rightOnButton 1200]);
               Sample.layout (Some [Sample.rightOnButton 5000])]
              initial
              ltac:(repeat constructor; discriminate) eq_refl)
    as (Hc & _ & _ & _ & Hrest).
  split; [ exact Hc | ].
  exact (proj1 (Hrest ltac:(discriminate))).
Defined.

(** [hover] reads nothing of the cursor but carries its position, its
    visibility and its colour over. *)
Lemma hover_ignores_cursor (target : option Element) (now after : Q)
      (cur cur' : CursorState) (st : TargetState) (d : Dom) :
  let r := hover target now after cur st d in
  let r' := hover target now after cur' st d in
  snd (fst r) = snd (fst r') /\ snd r = snd r' /\
  progress (fst (fst r)) = progress (fst (fst r')) /\
  hovering (fst (fst r)) = hovering (fst (fst r')).
Proof.
  cbv zeta. unfold hover. destruct target as [b |].
  - destruct (negb (sameTarget (lastTarget st) b)); [ repeat split | ].
    destruct (Qle_bool 1 _); repeat split.
  - repeat split.
Qed.

Lemma left_frame_tracks (f : Frame) (h : Hand) (w : World) (s : Dwell) :
  loneHand "Left" f = Some h ->
  active (at1 (cursors w)) = false ->
  tracks w s ->
  tracks (updateLoop f w) (tick (tickOf f h) s) /\
  at1 (cursors (updateLoop f w)) = at1 (cursors w) /\
  at1 (internalState (updateLoop f w)) = at1 (internalState w) /\
  active (at0 (cursors (updateLoop f w))) = true.
Proof.
  intros Hlone Hoff (Hst & Hd & Hp & Hh).
  apply loneHand_results in Hlone as [Hres Hleft].
  rewrite (updateLoop_left_hand_only f h w Hres Hleft Hoff).
  destruct s as [[cur st] d]. cbn [fst snd] in Hst, Hd, Hp, Hh.
  unfold tracks, tick, tickOf. cbn [target tnow tafter cursors internalState dom at0 at1].
  rewrite Hst, Hd.
  match goal with |- context [hover ?t ?n ?a ?c st d] =>
    destruct (hover_ignores_cursor t n a c cur st d) as (E1 & E2 & E3 & E4);
    pose proof (hover_active t n a c st d) as Ha end.
  cbv zeta in *. repeat split; assumption.
Qed.

(** X12: over frames that hold nothing or only a hand labelled 'Left',
    with the other cursor hidden, the loop is the dwell step of cursor 0
    iterated over the hit tests and clock readings of those frames: the
    recorded target, the start time, the marked buttons, the click log,
    the progress and the hovering flag are those of [ticks]; the other
    cursor is not touched. *)
Theorem left_hand_frames_are_ticks :
  forall (fs : list Frame) (w : World),
    Forall (fun f => results f = None \/ loneHand "Left" f <> None) fs ->
    active (at1 (cursors w)) = false ->
    let w' := runFrames fs w in
    let s' := ticks (leftTicks fs) (leftDwell w) in
    at0 (internalState w') = snd (fst s') /\
    dom w' = snd s' /\
    progress (at0 (cursors w')) = progress (fst (fst s')) /\
    hovering (at0 (cursors w')) = hovering (fst (fst s')) /\
    at1 (cursors w') = at1 (cursors w) /\
    at1 (internalState w') = at1 (internalState w).
Proof.
  intros fs w Hall Hoff. cbv zeta.
  assert (H : forall s, tracks w s ->
            tracks (runFrames fs w) (ticks (leftTicks fs) s) /\
            at1 (cursors (runFrames fs w)) = at1 (cursors w) /\
            at1 (internalState (runFrames fs w)) = at1 (internalState w)).
  { revert w Hoff. induction Hall as [| f fs Hf _ IH]; intros w Hoff s Hs.
    - cbn. repeat split; apply Hs.
    - cbn [runFrames fold_left leftTicks]. fold (runFrames fs (updateLoop f w)).
      destruct (loneHand "Left" f) as [h |] eqn:Elone.
      + destruct (left_frame_tracks f h w s Elone Hoff Hs) as (Ht & H1 & H1' & _).
        cbn [ticks fold_left]. fold (ticks (leftTicks fs) (tick (tickOf f h) s)).
        assert (Hoff' : active (at1 (cursors (updateLoop f w))) = false)
          by (rewrite H1; exact Hoff).
        destruct (IH (updateLoop f w) Hoff' _ Ht) as (It & I1 & I1').
        rewrite I1, I1', H1, H1'. repeat split; apply It.
      + destruct Hf as [Hnone | Hf]; [ | contradiction ].
        assert (E : updateLoop f w = w) by (unfold updateLoop; rewrite Hnone; reflexivity).
        rewrite E. apply IH; assumption. }
  destruct (H (leftDwell w)) as ((A & B & C & D) & E & F).
  { repeat split. }
  repeat split; assumption.
Qed.

Lemma left_hand_frames_are_ticks_witness :
  let fs := [Sample.layout (Some [Sample.leftOnButton 0]);
             Sample.layout None;
             Sample.layout (Some [Sample.leftOnButton 600]);
             Sample.layout (Some [Sample.leftOnButton 1000])] in
  leftTicks fs = [Sample.onButton 0; Sample.onButton 600; Sample.onButton 1000] /\
  dom (runFrames fs initial) = snd (ticks (leftTicks fs) (leftDwell initial)) /\
  clicks (dom (runFrames fs initial)) = [7%nat].
Proof.
  split; [ reflexivity | ].
  pose proof (left_hand_frames_are_ticks
                [Sample.layout (Some [Sample.leftOnButton 0]);
                 Sample.layout None;
                 Sample.layout (Some [Sample.leftOnButton 600]);
                 Sample.layout (Some [Sample.leftOnButton 1000])]
                initial
                ltac:(repeat (apply List.Forall_cons;
                                [ first [ left; reflexivity | right; discriminate ] | ]);
                      apply List.Forall_nil)
                eq_refl) as H.
  cbv zeta in H. destruct H as (_ & Hd & _).
  split; [ exact Hd | ].
  rewrite Hd. reflexivity.
Defined.

Lemma heldSince_snoc (b : Element) (since : Q) (hist : list Tick) (t : Tick) :
  heldSince b since hist -> target t = Some b -> heldSince b since (hist ++ [t]).
Proof.
  intros (before & first & run & Eh & Hall & Efirst) Ht.
  exists before, first, (run ++ [t]). split; [ | split ].
  - rewrite Eh, <- app_assoc. reflexivity.
  - change (first :: run ++ [t]) with ((first :: run) ++ [t]).
    apply Forall_app. split; [ exact Hall | repeat constructor; exact Ht ].
  - exact Efirst.
Qed.

(** A tick that clicks is on the recorded target, a full threshold after
    the dwell start. *)
Lemma fires_inv (t : Tick) (cur : CursorState) (st : TargetState) (d : Dom) :
  fires t (cur, st, d) = true ->
  exists b, target t = Some b /\ lastTarget st = Some b /\
            1000 <= tnow t - startTime st.
Proof.
  unfold fires, tick, hover. destruct (target t) as [b |].
  - destruct (sameTarget (lastTarget st) b) eqn:Es; cbn [negb].
    + destruct (Qle_bool 1 _) eqn:E.
      * intros _. exists b. apply sameTarget_true in Es. apply reaches_one in E.
        repeat split; assumption.
      * cbn [fst snd clicks]. rewrite Nat.eqb_refl. discriminate.
    + cbn [fst snd clicks]. rewrite Nat.eqb_refl. discriminate.
  - destruct (lastTarget st); cbn [fst snd clicks]; rewrite Nat.eqb_refl; discriminate.
Qed.

(** The recorded target and the dwell start after a tick. *)
Lemma tick_target (t : Tick) (cur : CursorState) (st : TargetState) (d : Dom) :
  let st' := snd (fst (tick t (cur, st, d))) in
  lastTarget st' = target t /\
  (forall b, target t = Some b ->
     (lastTarget st <> Some b /\ startTime st' = tnow t) \/
     (lastTarget st = Some b /\
      (startTime st' = startTime st \/
       (1000 <= tnow t - startTime st /\ startTime st' = tafter t + 500)))).
Proof.
  cbv zeta. unfold tick, hover. destruct (target t) as [b |].
  - destruct (sameTarget (lastTarget st) b) eqn:Es; cbn [negb].
    + apply sameTarget_true in Es. destruct (Qle_bool 1 _) eqn:E; cbn [fst snd lastTarget startTime].
      * split; [ exact Es | ]. intros b' Hb. inversion Hb; subst b'.
        right. split; [ exact Es | right ]. apply reaches_one in E. split; [ exact E | reflexivity ].
      * split; [ exact Es | ]. intros b' Hb. inversion Hb; subst b'.
        right. split; [ exact Es | left; reflexivity ].
    + cbn [fst snd lastTarget startTime]. split; [ reflexivity | ].
      intros b' Hb. inversion Hb; subst b'. left. split; [ | reflexivity ].
      intros Hl. apply sameTarget_true in Hl. congruence.
  - cbn [fst snd lastTarget]. split; [ reflexivity | ]. intros b Hb. discriminate.
Qed.

Lemma ticks_snoc (hist : list Tick) (t : Tick) (s : Dwell) :
  ticks (hist ++ [t]) s = tick t (ticks hist s).
Proof. unfold ticks. rewrite fold_left_app. reflexivity. Qed.

Lemma held_invariant (hist : list Tick) (cur : CursorState) (st : TargetState) (d : Dom) :
  lastTarget st = None ->
  Forall (fun u => tnow u <= tafter u) hist ->
  forall b, lastTarget (snd (fst (ticks hist (cur, st, d)))) = Some b ->
            exists since, heldSince b since hist /\
                          since <= startTime (snd (fst (ticks hist (cur, st, d)))).
Proof.
  intros Hnone. induction hist as [| t hist IH] using rev_ind; intros Hclk b Hb.
  - cbn in Hb. congruence.
  - apply Forall_app in Hclk as [Hclk Ht]. inversion Ht as [| ? ? Hta _]; subst.
    specialize (IH Hclk). rewrite ticks_snoc in *.
    destruct (ticks hist (cur, st, d)) as [[cur1 st1] d1] eqn:Es.
    cbn [fst snd] in IH.
    destruct (tick_target t cur1 st1 d1) as [Hlast Hstart]. cbv zeta in *.
    rewrite Hlast in Hb.
    destruct (Hstart b Hb) as [[Hnew E] | [Hsame E]].
    + exists (tnow t). split; [ | rewrite E; lra ].
      exists hist, t, []. repeat split. constructor; [ exact Hb | constructor ].
    + destruct (IH b Hsame) as (since & Hheld & Hle).
      exists since. split; [ apply heldSince_snoc; assumption | ].
      destruct E as [E | [Hel E]]; rewrite E; lra.
Qed.

(** X13: a cursor clicks a button only after holding it: if a tick calls
    click(), then its button was the hit-test result of every tick of an
    unbroken run that ends just before it and whose first clock reading is
    at least 1000 ms earlier.  (The cursor starts without a target and each
    tick reads the clock in order.) *)
Theorem click_needs_a_second_on_the_button :
  forall (hist : list Tick) (t : Tick) (cur : CursorState) (st : TargetState) (d : Dom),
    lastTarget st = None ->
    Forall (fun u => tnow u <= tafter u) hist ->
    fires t (ticks hist (cur, st, d)) = true ->
    exists b since,
      target t = Some b /\ heldSince b since hist /\ since + 1000 <= tnow t.
Proof.
  intros hist t cur st d Hnone Hclk Hfires.
  pose proof (held_invariant hist cur st d Hnone Hclk) as Hinv.
  destruct (ticks hist (cur, st, d)) as [[cur1 st1] d1].
  apply fires_inv in Hfires as (b & Ht & Hlast & Hel).
  cbn [fst snd] in Hinv. destruct (Hinv b Hlast) as (since & Hheld & Hle).
  exists b, since. repeat split; [ exact Ht | exact Hheld | lra ].
Qed.

Lemma click_needs_a_second_on_the_button_witness :
  exists b since,
    target (Sample.onButton 1000) = Some b /\
    heldSince b since [Sample.onButton 0; Sample.onButton 900] /\
    since + 1000 <= 1000.
Proof.
  exact (click_needs_a_second_on_the_button
           [Sample.onButton 0; Sample.onButton 900] (Sample.onButton 1000)
           (at0 (cursors initial)) (at0 (internalState initial)) (dom initial)
           eq_refl
           ltac:(repeat (apply List.Forall_cons; [ vm_compute; discriminate | ]);
                 apply List.Forall_nil)
           eq_refl).
Defined.

(** X14: the progress stored by a frame is always below 1, whatever the
    state and the clock; it is negative exactly when the button is the
    recorded target and the dwell start lies in the future, which is the
    500 ms that follow a click. *)
Theorem stored_progress_is_below_one :
  forall (t : Tick) (cur : CursorState) (st : TargetState) (d : Dom),
    let p := progress (fst (fst (tick t (cur, st, d)))) in
    p < 1 /\
    (p < 0 <-> exists b, target t = Some b /\ lastTarget st = Some b /\
                         tnow t < startTime st).
Proof.
  intros t cur st d. cbv zeta. unfold tick.
  destruct (target t) as [b |].
  - destruct (sameTarget (lastTarget st) b) eqn:Es.
    + apply sameTarget_true in Es.
      destruct (Qlt_le_dec (tnow t - startTime st) 1000) as [Hel | Hel].
      * rewrite (hover_hold b _ _ cur st d Es Hel). cbn [fst progress].
        rewrite (min_below_one _ Hel).
        unfold Qdiv. change (/ 1000) with (1 # 1000). split; [ lra | ].
        split.
        -- intros Hneg. exists b. repeat split; [ exact Es | lra ].
        -- intros (b' & _ & _ & Hfut). lra.
      * rewrite (hover_click b _ _ cur st d Es Hel). cbn [fst progress].
        split; [ lra | ]. split; [ intros H; lra | ].
        intros (b' & _ & _ & Hfut). lra.
    + rewrite (hover_new b _ _ cur st d).
      * cbn [fst progress]. split; [ lra | ]. split; [ intros H; lra | ].
        intros (b' & Hb & Hl & _). inversion Hb; subst b'.
        apply sameTarget_true in Hl. congruence.
      * intros Hl. apply sameTarget_true in Hl. congruence.
  - cbn [hover fst progress]. split; [ lra | ]. split; [ intros H; lra | ].
    intros (b' & Hb & _). discriminate.
Qed.

(** X15: a cursor that goes straight from button [a] to another button
    [b] leaves the hover class on [a], and nothing it does afterwards
    removes it as long as it does not hover [a] again: only the recorded
    target is ever unmarked. *)
Theorem marker_of_a_left_button_stays :
  forall (a b : Element) (t : Tick) (ts : list Tick)
         (cur : CursorState) (st : TargetState) (d : Dom),
    a <> b ->
    a ∈ hoverClass d ->
    target t = Some b ->
    Forall (fun u => target u <> Some a) ts ->
    a ∈ hoverClass (snd (ticks (t :: ts) (cur, st, d))) /\
    b ∈ hoverClass (snd (tick t (cur, st, d))).
Proof.
  intros a b t ts cur st d Hab Ha Ht Hts.
  assert (Hstep : forall u cur st d,
            a ∈ hoverClass d -> lastTarget st <> Some a -> target u <> Some a ->
            a ∈ hoverClass (snd (tick u (cur, st, d))) /\
            lastTarget (snd (fst (tick u (cur, st, d)))) <> Some a).
  { clear. intros u cur st d Ha Hl Hu.
    destruct (tick_target u cur st d) as [Hlast _]. cbv zeta in Hlast.
    split; [ | rewrite Hlast; exact Hu ].
    unfold tick, hover. destruct (target u) as [b |].
    - destruct (negb (sameTarget (lastTarget st) b));
        [ | destruct (Qle_bool 1 _) ]; cbn [snd hoverClass];
        apply elem_of_union; left; exact Ha.
    - destruct (lastTarget st) as [c |]; cbn [snd hoverClass]; [ | exact Ha ].
      apply elem_of_difference. split; [ exact Ha | ].
      intros Hc. apply elem_of_singleton in Hc. congruence. }
  assert (Hfirst : a ∈ hoverClass (snd (tick t (cur, st, d))) /\
                   b ∈ hoverClass (snd (tick t (cur, st, d))) /\
                   lastTarget (snd (fst (tick t (cur, st, d)))) <> Some a).
  { destruct (tick_target t cur st d) as [Hlast _]. cbv zeta in Hlast.
    split; [ | split; [ | rewrite Hlast, Ht; congruence ] ].
    - unfold tick, hover. rewrite Ht.
      destruct (negb (sameTarget (lastTarget st) b));
        [ | destruct (Qle_bool 1 _) ]; cbn [snd hoverClass];
        apply elem_of_union; left; exact Ha.
    - unfold tick, hover. rewrite Ht.
      destruct (negb (sameTarget (lastTarget st) b));
        [ | destruct (Qle_bool 1 _) ]; cbn [snd hoverClass];
        apply elem_of_union; right; apply elem_of_singleton; reflexivity. }
  destruct Hfirst as (Ha1 & Hb1 & Hl1). split; [ | exact Hb1 ].
  cbn [ticks fold_left]. fold (ticks ts (tick t (cur, st, d))).
  destruct (tick t (cur, st, d)) as [[cur1 st1] d1]. cbn [fst snd] in Ha1, Hl1.
  clear - Hstep Ha1 Hl1 Hts. revert cur1 st1 d1 Ha1 Hl1.
  induction Hts as [| u ts Hu _ IH]; intros cur1 st1 d1 Ha1 Hl1.
  - exact Ha1.
  - cbn [ticks fold_left]. fold (ticks ts (tick u (cur1, st1, d1))).
    destruct (Hstep u cur1 st1 d1 Ha1 Hl1 Hu) as [Ha2 Hl2].
    destruct (tick u (cur1, st1, d1)) as [[cur2 st2] d2]. apply IH; assumption.
Qed.

Lemma marker_of_a_left_button_stays_witness :
  let s := tick (Sample.onButton 0) Sample.dwell0 in
  let moves := [mkTick (Some 9%nat) 100 100; mkTick None 200 200;
                mkTick (Some 9%nat) 300 300; mkTick None 400 400] in
  7%nat ∈ hoverClass (snd (ticks moves s)) /\
  elements (hoverClass (snd (ticks moves s))) = [7%nat].
Proof.
  split; [ | reflexivity ].
  exact (proj1 (marker_of_a_left_button_stays 7%nat 9%nat
           (mkTick (Some 9%nat) 100 100)
           [mkTick None 200 200; mkTick (Some 9%nat) 300 300; mkTick None 400 400]
           (fst (fst (tick (Sample.onButton 0) Sample.dwell0)))
           (snd (fst (tick (Sample.onButton 0) Sample.dwell0)))
           (snd (tick (Sample.onButton 0) Sample.dwell0))
           ltac:(discriminate)
           ltac:(apply elem_of_union; right; apply elem_of_singleton; reflexivity)
           eq_refl
           ltac:(repeat (apply List.Forall_cons; [ discriminate | ]);
                 apply List.Forall_nil))).
Defined.

End CursorExtra.

(** * Properties of the note component *)

Module NoteProps.
Import Note Spec.

Local Open Scope Q_scope.

Lemma entering_playing_resets_chart (env : App.StartEnv) (s : App.State) :
  App.gameStatus s <> PLAYING ->
  App.gameStatus (App.exec (App.startGame env) s) = PLAYING ->
  App.DEMO_CHART (App.exec (App.startGame env) s)
  = map App.resetNote (App.DEMO_CHART s).
Proof.
  intros Hbefore Hafter. unfold App.exec in *.
  destruct (App.isCameraReady env) eqn:Hcam.
  2:{ rewrite (AppProps.startGame_not_ready env s Hcam) in Hafter. contradiction. }
  destruct (App.audioCtxSuspended env && negb (App.resumeResolves env)) eqn:Hctx.
  { unfold App.startGame in Hafter. rewrite Hcam, Hctx in Hafter. contradiction. }
  apply (AppProps.startGame_fields env s Hcam Hctx).
Qed.

Section Constants.

Variable LANE_X_POSITIONS : Z -> option Q.
Variable LAYER_Y_POSITIONS : Z -> option Q.

(** X16: once a start has entered PLAYING, every note of the chart is drawn
    as a whole note at its lane, layer and depth, whatever its state was
    before, also when an old [hitTime] is still stored on it: no note of a
    new session is hidden or shown as debris. *)
Theorem notes_are_whole_after_start :
  forall (env : App.StartEnv) (s : App.State),
    App.gameStatus s <> PLAYING ->
    App.gameStatus (App.exec (App.startGame env) s) = PLAYING ->
    Forall2 (fun n n' =>
               forall z t,
                 Note LANE_X_POSITIONS LAYER_Y_POSITIONS (mkProps n' z t)
                 = CandyAt (LANE_X_POSITIONS (NoteData.lineIndex n))
                           (LAYER_Y_POSITIONS (NoteData.lineLayer n))
                           z (colorOf n))
            (App.DEMO_CHART s) (App.DEMO_CHART (App.exec (App.startGame env) s)).
Proof.
  intros env s Hbefore Hafter.
  rewrite (entering_playing_resets_chart env s Hbefore Hafter).
  induction (App.DEMO_CHART s) as [| n l IH]; cbn [map]; constructor; [ | exact IH ].
  intros z t. reflexivity.
Qed.

(** X17: the comparator of [React.memo] only lets React skip a render
    that would change nothing: when it answers true for two props of the
    same note (same lane, layer and hand), both render to the same tree,
    either nothing or a whole note at the same place; props whose note is
    hit are never skipped. *)
Theorem memo_skips_only_equal_renders :
  forall (prev next : NoteProps),
    sameSchedule (data prev) (data next) ->
    propsAreEqual prev next = true ->
    sameRendered (Note LANE_X_POSITIONS LAYER_Y_POSITIONS prev)
                 (Note LANE_X_POSITIONS LAYER_Y_POSITIONS next) /\
    truthyFlag (NoteData.hit (data next)) = false.
Proof.
  intros prev next (_ & _ & Hi & Hl & Ht & _) Heq.
  unfold propsAreEqual in Heq.
  destruct (truthyFlag (NoteData.hit (data next))) eqn:Hhit; [ discriminate | ].
  apply andb_prop in Heq as [Heq Hmissed]. apply andb_prop in Heq as [Hz Hh].
  apply Qeq_bool_iff in Hz.
  assert (Hhit' : truthyFlag (NoteData.hit (data prev)) = false).
  { destruct (NoteData.hit (data prev)) as [[|] |], (NoteData.hit (data next)) as [[|] |];
      cbn in *; congruence. }
  assert (Hm : truthyFlag (NoteData.missed (data prev))
               = truthyFlag (NoteData.missed (data next))).
  { destruct (NoteData.missed (data prev)) as [[|] |],
             (NoteData.missed (data next)) as [[|] |]; cbn in *; congruence. }
  unfold Note. rewrite Hhit, Hhit', Hm, Hi, Hl, Ht. cbn [andb].
  split; [ | reflexivity ].
  destruct (truthyFlag (NoteData.missed (data next))); cbn; [ exact I | ].
  repeat split. exact Hz.
Qed.

End Constants.

Lemma notes_are_whole_after_start_witness :
  let s := App.with_gameStatus IDLE (App.initial [Sample.noteHit]) in
  Forall2 (fun n n' =>
             forall z t,
               Note sampleLanes sampleLayers (mkProps n' z t)
               = CandyAt (sampleLanes (NoteData.lineIndex n))
                         (sampleLayers (NoteData.lineLayer n)) z (colorOf n))
          [Sample.noteHit]
          (App.DEMO_CHART (App.exec (App.startGame Sample.envOk) s)).
Proof.
  apply (notes_are_whole_after_start sampleLanes sampleLayers Sample.envOk
           (App.with_gameStatus IDLE (App.initial [Sample.noteHit]))).
  - discriminate.
  - reflexivity.
Defined.

Lemma memo_skips_only_equal_renders_witness :
  sameRendered
    (Note sampleLanes sampleLayers
          (mkProps (App.resetNote Sample.note1) (- (5 # 2)) 1))
    (Note sampleLanes sampleLayers
          (mkProps (App.resetNote Sample.note1) (- (10 # 4)) 2)) /\
  propsAreEqual (mkProps Sample.note1 (- (5 # 2)) 1)
                (mkProps Sample.noteHit (- (5 # 2)) 1) = false.
Proof.
  split; [ | reflexivity ].
  refine (proj1 (memo_skips_only_equal_renders sampleLanes sampleLayers
            (mkProps (App.resetNote Sample.note1) (- (5 # 2)) 1)
            (mkProps (App.resetNote Sample.note1) (- (10 # 4)) 2) _ _)).
  - unfold sameSchedule. cbn. repeat split.
  - reflexivity.
Defined.

(** X18: the scale of the debris of a hit note starts at 1, never grows
    with the time since the hit, and is held at 0.01 from 0.495 s on, so
    the debris never has a zero or negative scale. *)
Theorem debris_scale_shrinks_to_a_floor :
  forall (t : Q),
    0 <= t ->
    1 # 100 <= debrisScale t /\ debrisScale t <= 1 /\
    debrisScale 0 == 1 /\
    (forall t', t <= t' -> debrisScale t' <= debrisScale t) /\
    (99 # 200 <= t -> debrisScale t == 1 # 100) /\
    (t <= 99 # 200 -> debrisScale t == 1 - t * 2).
Proof.
  intros t Ht. unfold debrisScale.
  split; [ apply Q.le_max_l | ].
  split; [ apply Q.max_lub; lra | ].
  split; [ reflexivity | ].
  split; [ intros t' Hle; apply Q.max_le_compat_l; lra | ].
  split; intros H; [ apply Q.max_l | apply Q.max_r ]; lra.
Qed.

Lemma debris_scale_shrinks_to_a_floor_witness :
  debrisScale (1 # 4) == 1 # 2 /\ debrisScale 3 == 1 # 100.
Proof.
  assert (H14 : 0 <= 1 # 4) by (vm_compute; discriminate).
  assert (H3 : 0 <= 3) by (vm_compute; discriminate).
  split.
  - destruct (debris_scale_shrinks_to_a_floor (1 # 4) H14) as (_ & _ & _ & _ & _ & H).
    eapply Qeq_trans; [ apply H; vm_compute; discriminate | reflexivity ].
  - destruct (debris_scale_shrinks_to_a_floor 3 H3) as (_ & _ & _ & _ & H & _).
    apply H. vm_compute; discriminate.
Defined.

End NoteProps.
